(** * Analysis.py: citation matching and result reconciliation

    A shallow embedding of the pure parts of [Analysis.py]:
    [extract_year], [normalize_text], [find_best_local_match] and the
    parse-and-sort segment of [save_results].

    Strings.  A Python [str] is a sequence of code points.  It is modelled
    as [list ascii], one [ascii] per code point, so the model covers the code
    points 0..255 (ASCII and Latin-1).  The character classes below are
    Python's own for that range: [str.isspace], [str.lower], the regex
    classes [\s], [\d], [\w] of a [str] pattern. *)

From Stdlib Require Import List Ascii String ZArith QArith Qround Lia Bool
  Sorted Permutation.
Import ListNotations.

Local Open Scope Z_scope.

(** ** Characters and strings *)

Definition str := list ascii.

(** A string literal of the source. *)
Definition lit (s : string) : str := list_ascii_of_string s.

Definition code (c : ascii) : N := N_of_ascii c.

Definition in_range (lo hi : N) (c : ascii) : bool :=
  ((lo <=? code c) && (code c <=? hi))%N.

Definition is_code (n : N) (c : ascii) : bool := (code c =? n)%N.

(** [str.isspace] and the regex class [\s]: TAB..CR, FS..US, SPACE, NEL and
    NBSP are the white-space code points below 256. *)
Definition isspace (c : ascii) : bool :=
  in_range 9 13 c || in_range 28 32 c || is_code 133 c || is_code 160 c.

(** The regex class [a-z]. *)
Definition is_az (c : ascii) : bool := in_range 97 122 c.

(** The regex class [0-9]; below 256 it is also [\d]. *)
Definition is_09 (c : ascii) : bool := in_range 48 57 c.

(** [str.isalnum] below 256: the ASCII letters and digits, the Latin-1
    letters, the superscript digits and the vulgar fractions. *)
Definition isalnum (c : ascii) : bool :=
  is_09 c || in_range 65 90 c || is_az c
  || is_code 170 c || is_code 178 c || is_code 179 c || is_code 181 c
  || is_code 185 c || is_code 186 c || in_range 188 190 c
  || in_range 192 214 c || in_range 216 246 c || in_range 248 255 c.

(** The regex class [\w]: alphanumeric or underscore. *)
Definition is_word (c : ascii) : bool := isalnum c || is_code 95 c.

(** [str.lower] on one code point: [A-Z] and the Latin-1 capitals move up
    by 32, everything else stays. *)
Definition lower_char (c : ascii) : ascii :=
  if in_range 65 90 c || in_range 192 214 c || in_range 216 222 c
  then ascii_of_N (code c + 32) else c.

Definition lower (s : str) : str := map lower_char s.

Definition str_eqb (a b : str) : bool :=
  if list_eq_dec ascii_dec a b then true else false.

Fixpoint starts_with (p s : str) : bool :=
  match p, s with
  | [], _ => true
  | _ :: _, [] => false
  | a :: p', b :: s' => Ascii.eqb a b && starts_with p' s'
  end.

(** [s.replace(old, new)] for a non-empty [old]: the occurrences of [old]
    are found left to right and do not overlap.  [skip] counts the
    characters of a found occurrence still to be passed over. *)
Fixpoint replace_from (old new : str) (skip : nat) (s : str) : str :=
  match s with
  | [] => []
  | c :: rest =>
      match skip with
      | S k => replace_from old new k rest
      | O =>
          if starts_with old s
          then new ++ replace_from old new (List.length old - 1) rest
          else c :: replace_from old new 0 rest
      end
  end.

Definition replace (old new s : str) : str := replace_from old new 0 s.

(** [s.split()]: the maximal runs of non-white-space characters.  [cur] is
    the word being read. *)
Fixpoint split_from (cur : str) (s : str) : list str :=
  match s with
  | [] => match cur with [] => [] | _ => [cur] end
  | c :: rest =>
      if isspace c
      then match cur with
           | [] => split_from [] rest
           | _ => cur :: split_from [] rest
           end
      else split_from (cur ++ [c]) rest
  end.

Definition split (s : str) : list str := split_from [] s.

(** [sep.join(words)]. *)
Fixpoint join (sep : str) (words : list str) : str :=
  match words with
  | [] => []
  | [w] => w
  | w :: ws => w ++ sep ++ join sep ws
  end.

(** ** The matching helpers *)

(** [re.sub(r'[^a-z0-9\s]', ' ', text)]. *)
Definition keep_char (c : ascii) : bool := is_az c || is_09 c || isspace c.

Definition sub_non_alnum (s : str) : str :=
  map (fun c => if keep_char c then c else " "%char) s.

Definition normalize_text (text : str) : str :=
  let text := lower text in
  let text := replace (lit ".pdf") [] text in
  let text := sub_non_alnum text in
  join (lit " ") (split text).

(** The pattern [\b(19|20)\d{2}\b] tried at the head of [s], the
    character before [s] being a word character or not ([prev_word]).
    The four characters start with a digit, which is a word character, so
    [\b] in front holds when the previous character is not one, and [\b]
    behind when the next character is not one or the text ends. *)
Definition year_here (prev_word : bool) (s : str) : bool :=
  match s with
  | a :: b :: c :: d :: tl =>
      negb prev_word
      && ((is_code 49 a && is_code 57 b) || (is_code 50 a && is_code 48 b))
      && is_09 c && is_09 d
      && match tl with [] => true | e :: _ => negb (is_word e) end
  | _ => false
  end.

(** [re.search]: the leftmost position where the pattern matches. *)
Fixpoint search_year (prev_word : bool) (s : str) : option str :=
  match s with
  | [] => None
  | c :: rest =>
      if year_here prev_word s then Some (firstn 4 s)
      else search_year (is_word c) rest
  end.

Definition extract_year (text : str) : option str := search_year false text.

(** A value of type [Optional[str]] used as a condition: [None] and the
    empty string are false. *)
Definition truthy (o : option str) : bool :=
  match o with
  | Some (_ :: _) => true
  | _ => false
  end.

Definition opt_str_eqb (a b : option str) : bool :=
  match a, b with
  | Some x, Some y => str_eqb x y
  | None, None => true
  | _, _ => false
  end.

Definition len (s : str) : Z := Z.of_nat (List.length s).

(** [int(x)] on a float: truncation towards zero. *)
Definition int_of_Q (x : Q) : Z := Z.quot (Qnum x) (Zpos (Qden x)).

(** [a > b] on numbers. *)
Definition Qgt_bool (a b : Q) : bool := negb (Qle_bool a b).

(** ** The matcher

    [fuzz.token_set_ratio] and [fuzz.partial_ratio] belong to the library
    [thefuzz]; they are parameters of the model, integer valued.

    The score [final_score] is a float in the source.  It is modelled by the
    rational it stands for: an integer plus a length over 1000.  Doubles
    carry such values with an error below [2^-52 * (100 + len / 1000)],
    which neither reorders two distinct scores nor moves a score across an
    integer for any string that fits in memory.  Two scores that are equal
    as rationals are equal as doubles when they come from the same
    similarity and the same length, which is the only way to be equal for
    names shorter than 1000 characters; from 1000 characters on, equal
    rationals can be unequal doubles, and facts on ties are stated for
    shorter names only. *)
Section Matcher.

Variables token_set_ratio partial_ratio : str -> str -> Z.

(** The guardrail of the loop body: the candidate is skipped. *)
Definition year_mismatch (sheet_year file_year : option str) : bool :=
  truthy sheet_year && truthy file_year
  && negb (opt_str_eqb sheet_year file_year).

(** The similarity of a candidate before the tie-breaker is added. *)
Definition similarity (clean_sheet clean_file : str) : Z :=
  let base_score := token_set_ratio clean_sheet clean_file in
  let partial_score := partial_ratio clean_sheet clean_file in
  if 15 <? len clean_file then Z.max base_score partial_score
  else base_score.

(** The tie-breaker [len(clean_file) / 1000.0]. *)
Definition tie_break (clean_file : str) : Q :=
  (inject_Z (len clean_file) / 1000)%Q.

(** One iteration of [for file_name in local_files], on the pair
    [(best_file, best_score)]. *)
Definition match_step (clean_sheet : str) (sheet_year : option str)
    (st : option str * Q) (file_name : str) : option str * Q :=
  let '(best_file, best_score) := st in
  let clean_file := normalize_text file_name in
  let file_year := extract_year file_name in
  if year_mismatch sheet_year file_year then st
  else
    let final_score :=
      (inject_Z (similarity clean_sheet clean_file)
       + tie_break clean_file)%Q in
    if Qgt_bool final_score best_score then (Some file_name, final_score)
    else st.

Definition find_best_local_match (sheet_name_str : str)
    (local_files : list str) : option str * Z :=
  let clean_sheet := normalize_text sheet_name_str in
  let sheet_year := extract_year sheet_name_str in
  let '(best_file, best_score) :=
    fold_left (match_step clean_sheet sheet_year) local_files
      (None, inject_Z (-1)) in
  let display_score := Z.min (int_of_Q best_score) 100 in
  (best_file, display_score).

(** The state of the loop: no file, with the score [-1] it started
    from, or a file that passed the guardrail, with its own score. *)
Definition best_so_far (citation : str) (local_files : list str)
    (st : option str * Q) : Prop :=
  match fst st with
  | None => snd st = inject_Z (-1)
  | Some f =>
      In f local_files
      /\ year_mismatch (extract_year citation) (extract_year f) = false
      /\ snd st
         = (inject_Z (similarity (normalize_text citation) (normalize_text f))
            + tie_break (normalize_text f))%Q
      /\ (inject_Z (-1) < snd st)%Q
  end.

End Matcher.

#[local] Set Warnings "-register-all".

(** ** Parsing the batch output

    The values [json.loads] returns: [None], [bool], numbers, [str], [list]
    and [dict] with string keys.  A number is kept by its literal; the
    source never computes with one. *)
Inductive json : Type :=
  | JNull
  | JBool (b : bool)
  | JNum (literal : str)
  | JStr (s : str)
  | JArr (items : list json)
  | JObj (fields : list (str * json)).

(** The exceptions the loop body can raise; all derive from [Exception]. *)
Inductive exn : Type :=
  | JSONDecodeError | AttributeError | TypeError | KeyError | IndexError
  | ValueError.

Inductive res (A : Type) : Type :=
  | Ok (a : A)
  | Raise (e : exn).
Arguments Ok {A} a.
Arguments Raise {A} e.

Definition bind {A B : Type} (m : res A) (k : A -> res B) : res B :=
  match m with
  | Ok a => k a
  | Raise e => Raise e
  end.

Notation "x <- m ;; k" := (bind m (fun x => k))
  (at level 61, m at next level, right associativity).

Fixpoint lookup (key : str) (fields : list (str * json)) : option json :=
  match fields with
  | [] => None
  | (k, v) :: rest => if str_eqb k key then Some v else lookup key rest
  end.

(** [s.find(sub) >= 0], the test behind [sub in s] on strings. *)
Fixpoint occurs (sub s : str) : bool :=
  starts_with sub s
  || match s with
     | [] => false
     | _ :: rest => occurs sub rest
     end.

(** [key in v] for a string [key]. *)
Definition py_in (key : str) (v : json) : res bool :=
  match v with
  | JObj fields =>
      Ok (match lookup key fields with Some _ => true | None => false end)
  | JArr items =>
      Ok (existsb (fun x => match x with
                            | JStr s => str_eqb s key
                            | _ => false
                            end) items)
  | JStr s => Ok (occurs key s)
  | _ => Raise TypeError
  end.

(** [v[key]] for a string [key]. *)
Definition getitem (key : str) (v : json) : res json :=
  match v with
  | JObj fields =>
      match lookup key fields with
      | Some x => Ok x
      | None => Raise KeyError
      end
  | _ => Raise TypeError
  end.

(** [v[0]].  A [dict] made by [json.loads] has string keys only. *)
Definition getitem0 (v : json) : res json :=
  match v with
  | JArr (x :: _) => Ok x
  | JArr [] => Raise IndexError
  | JStr (c :: _) => Ok (JStr [c])
  | JStr [] => Raise IndexError
  | JObj _ => Raise KeyError
  | _ => Raise TypeError
  end.

(** The value under [key], or [None] when the key is absent. *)
Definition field_or_null (key : str) (fields : list (str * json)) : json :=
  match lookup key fields with Some x => x | None => JNull end.

(** [v.get(key)]: only a [dict] has the method. *)
Definition dict_get (key : str) (v : json) : res json :=
  match v with
  | JObj fields => Ok (field_or_null key fields)
  | _ => Raise AttributeError
  end.

(** A method of [str] called on [v]. *)
Definition as_str (v : json) : res str :=
  match v with
  | JStr s => Ok s
  | _ => Raise AttributeError
  end.

(** [s.split(sep, 1)] for a non-empty [sep]: the part before the first
    [sep] and, when there is one, the part after it. *)
Fixpoint split_once (sep s : str) : str * option str :=
  match s with
  | [] => ([], None)
  | c :: rest =>
      if starts_with sep s then ([], Some (skipn (List.length sep) s))
      else let '(a, b) := split_once sep rest in (c :: a, b)
  end.

Fixpoint lstrip (s : str) : str :=
  match s with
  | [] => []
  | c :: rest => if isspace c then lstrip rest else s
  end.

Fixpoint rstrip (s : str) : str :=
  match s with
  | [] => []
  | c :: rest =>
      match rstrip rest with
      | [] => if isspace c then [] else [c]
      | r => c :: r
      end
  end.

(** [s.strip()]. *)
Definition strip (s : str) : str := rstrip (lstrip s).

(** The line boundaries of [str.splitlines] below 256, CR apart. *)
Definition is_linebreak (c : ascii) : bool :=
  in_range 10 12 c || in_range 28 30 c || is_code 133 c.

(** [s.splitlines()]; CR LF counts as one boundary. *)
Fixpoint splitlines_from (cur : str) (s : str) : list str :=
  match s with
  | [] => match cur with [] => [] | _ => [cur] end
  | c :: rest =>
      if is_code 13 c then
        match rest with
        | d :: rest' =>
            if is_code 10 d then cur :: splitlines_from [] rest'
            else cur :: splitlines_from [] rest
        | [] => [cur]
        end
      else if is_linebreak c then cur :: splitlines_from [] rest
      else splitlines_from (cur ++ [c]) rest
  end.

Definition splitlines (s : str) : list str := splitlines_from [] s.

Record ResultRow : Type := {
  Row : Z;
  Sheet_Citation_Snippet : str;
  Methodology : json;
  Reason : json
}.

(** What one line does when no exception is raised. *)
Inductive outcome : Type :=
  | Appended (r : ResultRow)
  | Model_failed (row_num : str).

(** The two messages [safe_print] writes while parsing. *)
Inductive diagnostic : Type :=
  | Row_failed (row_num : str)
  | Error_parsing_line (e : exn).

(** [list.sort(key=...)]: a stable sort on the keys. *)
Section Sort.

Context {A : Type} (key : A -> Z).

Fixpoint insert_by (x : A) (l : list A) : list A :=
  match l with
  | [] => [x]
  | y :: l' => if key x <=? key y then x :: l else y :: insert_by x l'
  end.

Definition sort_by (l : list A) : list A := fold_right insert_by [] l.

(** The order of the keys. *)
Definition key_le (a b : A) : Prop := key a <= key b.

End Sort.

(** Removing the Markdown fence from the text of a candidate. *)
Definition clean_fences (candidate : str) : str :=
  strip (replace (lit "```") [] (replace (lit "```json") [] candidate)).

(** [json.loads] and [int] on a string are parameters: [None] stands for
    the exception they raise ([JSONDecodeError], [ValueError]). *)
Section Reconciler.

Variable json_loads : str -> option json.
Variable int_of_str : str -> option Z.

Definition loads (s : str) : res json :=
  match json_loads s with
  | Some v => Ok v
  | None => Raise JSONDecodeError
  end.

Definition to_int (s : str) : res Z :=
  match int_of_str s with
  | Some z => Ok z
  | None => Raise ValueError
  end.

(** The body of [try:] for one line. *)
Definition try_line (line : str) : res outcome :=
  entry <- loads line ;;
  custom_id <- dict_get (lit "custom_id") entry ;;
  custom_id <- as_str custom_id ;;
  let parts := split_once (lit "::") custom_id in
  let row_num := fst parts in
  let citation_snippet :=
    match snd parts with Some s => s | None => [] end in
  has_response <- py_in (lit "response") entry ;;
  has_candidates <-
    (if has_response : bool
     then response <- getitem (lit "response") entry ;;
          py_in (lit "candidates") response
     else Ok false) ;;
  if has_candidates : bool then
    response <- getitem (lit "response") entry ;;
    candidates <- getitem (lit "candidates") response ;;
    first <- getitem0 candidates ;;
    content <- getitem (lit "content") first ;;
    parts <- getitem (lit "parts") content ;;
    part <- getitem0 parts ;;
    candidate <- getitem (lit "text") part ;;
    candidate <- as_str candidate ;;
    data <- loads (clean_fences candidate) ;;
    row <- to_int row_num ;;
    methodology <- dict_get (lit "methodology") data ;;
    reason <- dict_get (lit "reason") data ;;
    Ok (Appended {| Row := row;
                    Sheet_Citation_Snippet := citation_snippet;
                    Methodology := methodology;
                    Reason := reason |})
  else Ok (Model_failed row_num).

(** One iteration of [for line in output_text.splitlines()], on the pair
    of [results_list] and the diagnostics printed so far. *)
Definition parse_step (st : list ResultRow * list diagnostic)
    (line : str) : list ResultRow * list diagnostic :=
  let '(results_list, printed) := st in
  match try_line line with
  | Ok (Appended r) => (results_list ++ [r], printed)
  | Ok (Model_failed row_num) =>
      (results_list, printed ++ [Row_failed row_num])
  | Raise e => (results_list, printed ++ [Error_parsing_line e])
  end.

Definition parse_results (lines : list str)
    : list ResultRow * list diagnostic :=
  fold_left parse_step lines ([], []).

(** [results_list] after [results_list.sort(key=lambda x: x["Row"])]:
    the rows handed to [writer.writerows], in this order. *)
Definition written_rows (lines : list str) : list ResultRow :=
  sort_by Row (fst (parse_results lines)).

(** From the downloaded text to the rows of the CSV file, with the
    diagnostics printed on the way. *)
Definition save_results (output_text : str)
    : list ResultRow * list diagnostic :=
  let lines := splitlines output_text in
  (written_rows lines, snd (parse_results lines)).

(** *** A usable line, declaratively

    The text of the model's answer in an entry of the shape
    [{"response": {"candidates": [{"content": {"parts": [{"text": t}]}}]}}]
    (further keys and further list items are allowed). *)
Definition response_text (entry : json) : option str :=
  match entry with
  | JObj fields =>
      match lookup (lit "response") fields with
      | Some (JObj response) =>
          match lookup (lit "candidates") response with
          | Some (JArr (JObj first :: _)) =>
              match lookup (lit "content") first with
              | Some (JObj content) =>
                  match lookup (lit "parts") content with
                  | Some (JArr (JObj part :: _)) =>
                      match lookup (lit "text") part with
                      | Some (JStr t) => Some t
                      | _ => None
                      end
                  | _ => None
                  end
              | _ => None
              end
          | _ => None
          end
      | _ => None
      end
  | _ => None
  end.

(** The row a line stands for: the line is a JSON object whose
    [custom_id] is a string with an integer before [::], and whose
    response text, the fence removed, is a JSON object.  [None] for every
    other line: response absent, blocked (no candidates) or malformed. *)
Definition usable_row (line : str) : option ResultRow :=
  match json_loads line with
  | Some (JObj fields) =>
      match field_or_null (lit "custom_id") fields,
            response_text (JObj fields) with
      | JStr custom_id, Some t =>
          match json_loads (clean_fences t),
                int_of_str (fst (split_once (lit "::") custom_id)) with
          | Some (JObj data), Some row =>
              Some {| Row := row;
                      Sheet_Citation_Snippet :=
                        match snd (split_once (lit "::") custom_id) with
                        | Some s => s
                        | None => []
                        end;
                      Methodology := field_or_null (lit "methodology") data;
                      Reason := field_or_null (lit "reason") data |}
          | _, _ => None
          end
      | _, _ => None
      end
  | _ => None
  end.

(** What a line adds to the result table. *)
Definition rows_of_line (line : str) : list ResultRow :=
  match usable_row line with
  | Some r => [r]
  | None => []
  end.

(** The response is absent: an object without the key [response]. *)
Definition response_absent (line : str) : bool :=
  match json_loads line with
  | Some (JObj fields) =>
      match lookup (lit "response") fields with
      | None => true
      | Some _ => false
      end
  | _ => false
  end.

(** The response is blocked: an object without the key [candidates]. *)
Definition response_blocked (line : str) : bool :=
  match json_loads line with
  | Some (JObj fields) =>
      match lookup (lit "response") fields with
      | Some (JObj response) =>
          match lookup (lit "candidates") response with
          | None => true
          | Some _ => false
          end
      | _ => false
      end
  | _ => false
  end.

End Reconciler.

(** ** Reference definitions, in the words of the specification *)

Definition ends_with (suffix s : str) : bool :=
  starts_with (rev suffix) (rev s).

(** Strip a literal suffix: a trailing occurrence only. *)
Definition remove_suffix (suffix s : str) : str :=
  if ends_with suffix s
  then firstn (List.length s - List.length suffix) s
  else s.

(** Collapse every run of white space to a single space; [in_run] tells
    that the previous character was white space. *)
Fixpoint collapse_from (in_run : bool) (s : str) : str :=
  match s with
  | [] => []
  | c :: rest =>
      if isspace c
      then if in_run then collapse_from true rest
           else " "%char :: collapse_from true rest
      else c :: collapse_from false rest
  end.

Definition collapse_ws (s : str) : str := collapse_from false s.

(** The normalizer as the specification words it: the suffix is stripped. *)
Definition normalize_spec (text : str) : str :=
  strip (collapse_ws (sub_non_alnum (remove_suffix (lit ".pdf") (lower text)))).

(** The same with every occurrence of [.pdf] removed. *)
Definition normalize_ref (text : str) : str :=
  strip (collapse_ws (sub_non_alnum (replace (lit ".pdf") [] (lower text)))).

(** A 4-digit number beginning with 19 or 20. *)
Definition year_token (y : str) : bool :=
  match y with
  | [a; b; c; d] =>
      ((is_code 49 a && is_code 57 b) || (is_code 50 a && is_code 48 b))
      && is_09 c && is_09 d
  | _ => false
  end.

(** The first substring that is a year token, wherever it stands. *)
Fixpoint first_year_substring (s : str) : option str :=
  match s with
  | [] => None
  | _ :: rest =>
      if year_token (firstn 4 s) then Some (firstn 4 s)
      else first_year_substring rest
  end.

(** The text before an occurrence ends with a word character. *)
Definition word_before (pre : str) : bool :=
  match rev pre with
  | [] => false
  | c :: _ => is_word c
  end.

(** The text after an occurrence starts with a word character. *)
Definition word_after (post : str) : bool :=
  match post with
  | [] => false
  | c :: _ => is_word c
  end.

(** [y] stands in [text] after [pre] and before [post], as a word of its
    own. *)
Definition year_occurrence (text pre y post : str) : Prop :=
  text = pre ++ y ++ post /\ year_token y = true
  /\ word_before pre = false /\ word_after post = false.

(** The text before an occurrence ends with a letter or a digit. *)
Definition alnum_before (pre : str) : bool :=
  match rev pre with
  | [] => false
  | c :: _ => isalnum c
  end.

(** The text after an occurrence starts with a letter or a digit. *)
Definition alnum_after (post : str) : bool :=
  match post with
  | [] => false
  | c :: _ => isalnum c
  end.

(** [y] stands in [text] after [pre] and before [post], no letter and no
    digit next to it. *)
Definition standalone_year (text pre y post : str) : Prop :=
  text = pre ++ y ++ post /\ year_token y = true
  /\ alnum_before pre = false /\ alnum_after post = false.

(** The text holds no underscore. *)
Definition no_underscore (text : str) : Prop :=
  Forall (fun c => is_code 95 c = false) text.

(** The output alphabet of the normalizer. *)
Definition is_clean_char (c : ascii) : bool :=
  is_az c || is_09 c || is_code 32 c.

(** Words of clean characters with one space between them: no space after
    a space or at either end.  [after_space] tells that the previous
    position was a space or the start. *)
Fixpoint well_spaced (after_space : bool) (s : str) : bool :=
  match s with
  | [] => negb after_space
  | c :: rest =>
      if is_code 32 c then negb after_space && well_spaced true rest
      else (is_az c || is_09 c) && well_spaced false rest
  end.

(** A lower-case letter or a digit; not white space. *)
Definition alnum_lc (c : ascii) : Prop := is_az c || is_09 c = true.
Definition nospace (c : ascii) : Prop := isspace c = false.

(** A non-empty word of characters in [Q]. *)
Definition word_of (Q : ascii -> Prop) (w : str) : Prop :=
  w <> [] /\ Forall Q w.

(** Both strings carry a year token and the tokens differ. *)
Definition years_differ (citation file_name : str) : Prop :=
  exists y1 y2,
    extract_year citation = Some y1 /\ extract_year file_name = Some y2
    /\ y1 <> y2.

(** The order of the CSV file: by row identifier. *)
Definition row_le (a b : ResultRow) : Prop := Row a <= Row b.

(** *** A sample backend, for the examples

    [int] on a string of ASCII digits. *)
Definition sample_int (s : str) : option Z :=
  match s with
  | [] => None
  | _ =>
      fold_left
        (fun acc c =>
           match acc with
           | Some n =>
               if is_09 c then Some (10 * n + (Z.of_N (code c) - 48))
               else None
           | None => None
           end) s (Some 0)
  end.

Definition sample_answer : json :=
  JObj [(lit "methodology", JStr (lit "Experimental"));
        (lit "reason", JStr (lit "Randomized controlled trial."))].

Definition sample_entry (custom_id : str) (response : list (str * json))
    : json :=
  JObj ((lit "custom_id", JStr custom_id) :: response).

Definition answered (text : str) : list (str * json) :=
  [(lit "response",
    JObj [(lit "candidates",
           JArr [JObj [(lit "content",
                        JObj [(lit "parts",
                               JArr [JObj [(lit "text", JStr text)]])])]])])].

Definition blocked : list (str * json) :=
  [(lit "response",
    JObj [(lit "promptFeedback",
           JObj [(lit "blockReason", JStr (lit "SAFETY"))])])].

(** A parser that knows three output lines and one answer; every other
    text is not JSON to it. *)
Definition sample_loads (s : str) : option json :=
  if str_eqb s (lit "line 12")
  then Some (sample_entry (lit "12::Smith 2019") (answered (lit "```json answer ```")))
  else if str_eqb s (lit "line 7")
  then Some (sample_entry (lit "7::Jones 2020") blocked)
  else if str_eqb s (lit "line 3")
  then Some (sample_entry (lit "3::Lee 2018") (answered (lit "answer")))
  else if str_eqb s (lit "answer") then Some sample_answer
  else None.

(** A file name of 1000 characters. *)
Definition long_name : str := repeat "a"%char 1000.

(** [clamp(x, 0, 100)]. *)
Definition clamp_0_100 (x : Z) : Z := Z.max 0 (Z.min x 100).

(** ** The rest of the pipeline

    *** The matcher, seen from [run_batch_job] *)

(** The score the loop compares: similarity plus tie-breaker. *)
Definition adjusted_score (token_set_ratio partial_ratio : str -> str -> Z)
    (citation file_name : str) : Q :=
  (inject_Z (similarity token_set_ratio partial_ratio
               (normalize_text citation) (normalize_text file_name))
   + tie_break (normalize_text file_name))%Q.

(** The guardrail skips [file_name] for [citation]. *)
Definition eliminated (citation file_name : str) : bool :=
  year_mismatch (extract_year citation) (extract_year file_name).

(** The state of the loop after the candidates [seen]: no file yet, every
    candidate seen being eliminated or scored -1 at most; or the best file,
    strictly ahead of the candidates before it and not behind those after
    it. *)
Definition best_of_prefix (token_set_ratio partial_ratio : str -> str -> Z)
    (citation : str) (seen : list str) (st : option str * Q) : Prop :=
  let score := adjusted_score token_set_ratio partial_ratio citation in
  match fst st with
  | None =>
      snd st = inject_Z (-1)
      /\ forall g, In g seen ->
           eliminated citation g = true \/ (score g <= inject_Z (-1))%Q
  | Some f =>
      snd st = score f /\ eliminated citation f = false
      /\ exists pre post,
           seen = pre ++ f :: post
           /\ (forall g, In g pre ->
                 eliminated citation g = true \/ (score g < score f)%Q)
           /\ (forall g, In g post ->
                 eliminated citation g = true \/ (score g <= score f)%Q)
  end.

(** [f.lower().endswith('.pdf')]. *)
Definition is_pdf (f : str) : bool := ends_with (lit ".pdf") (lower f).

(** [[f for f in os.listdir(local_folder) if f.lower().endswith('.pdf')]],
    on the listing of the folder. *)
Definition local_pdf_files (listing : list str) : list str :=
  filter is_pdf listing.

(** One entry of the sheet: [{"row": ..., "name": ...}]. *)
Record entry : Type := { row : Z; name : str }.

(** What the head of the loop over [file_list] decides for an entry: the
    row is skipped for low confidence, or goes on to the upload with the
    matched file name as [find_best_local_match] returned it. *)
Inductive match_outcome : Type :=
  | Low_confidence (row_num score : Z)
  | Matched (row_num : Z) (matched_filename : option str) (score : Z).

Definition match_entry (token_set_ratio partial_ratio : str -> str -> Z)
    (local_pdf_files : list str) (e : entry) : match_outcome :=
  let citation_text := name e in
  let row_num := row e in
  let '(matched_filename, score) :=
    find_best_local_match token_set_ratio partial_ratio citation_text
      local_pdf_files in
  if score <? 40 then Low_confidence row_num score
  else Matched row_num matched_filename score.

(** A similarity function for the examples: every pair scores 80. *)
Definition sample_ratio : str -> str -> Z := fun _ _ => 80.

(** *** The custom id of a request *)

(** [s.encode('ascii', 'ignore').decode('ascii')]: the code points from
    128 on are dropped. *)
Definition ascii_ignore (s : str) : str :=
  filter (fun c => (code c <? 128)%N) s.

Definition digit_char (d : Z) : ascii := ascii_of_N (Z.to_N (48 + d)).

(** The decimal digits of [n >= 0], most significant first; [fuel] bounds
    the number of digits. *)
Fixpoint digits_of (fuel : nat) (n : Z) : str :=
  match fuel with
  | O => []
  | S fuel' =>
      if n <? 10 then [digit_char n]
      else digits_of fuel' (n / 10) ++ [digit_char (n mod 10)]
  end.

(** [str(n)] on an [int], as the f-string formats [row_num]. *)
Definition str_of_int (n : Z) : str :=
  if n <? 0 then "-"%char :: digits_of (S (Z.to_nat (- n))) (- n)
  else digits_of (S (Z.to_nat n)) n.

(** [citation_text[:50].encode('ascii', 'ignore').decode('ascii')]. *)
Definition safe_citation_snippet (citation_text : str) : str :=
  ascii_ignore (firstn 50 citation_text).

(** [f"{row_num}::{safe_citation_snippet}"]. *)
Definition safe_citation_id (row_num : Z) (citation_text : str) : str :=
  str_of_int row_num ++ lit "::" ++ safe_citation_snippet citation_text.

(** *** Submitting the job

    [client.batches.create] is a parameter: what it returns for a model, or
    [None] when it raises. *)
Section Submit.

Context {job : Type}.
Variable create : str -> option job.

(** [for model_id in model_candidates], with [break] on the first model
    the backend accepts: the job, and the models attempted in order. *)
Fixpoint try_models (model_candidates : list str) : option job * list str :=
  match model_candidates with
  | [] => (None, [])
  | model_id :: rest =>
      match create model_id with
      | Some batch_job => (Some batch_job, [model_id])
      | None =>
          let '(batch_job, attempted) := try_models rest in
          (batch_job, model_id :: attempted)
      end
  end.

End Submit.

Definition model_candidates : list str :=
  [lit "models/gemini-flash-latest";
   lit "models/gemini-pro-latest";
   lit "models/gemini-2.0-flash-lite-preview-02-05";
   lit "models/gemini-2.5-flash-lite"].

(** *** Reading the sheet

    [get_files_from_sheet] from [all_rows = sheet.get_all_values()] on;
    [sys.exit(code)] is the result [Exit code]. *)
Inductive sheet_result : Type :=
  | Exit (exit_code : Z)
  | Selected (selected_files : list entry).

(** [headers.index(column_header)]; [None] stands for [ValueError]. *)
Fixpoint index_of (x : str) (l : list str) : option nat :=
  match l with
  | [] => None
  | y :: l' => if str_eqb y x then Some 0%nat else option_map S (index_of x l')
  end.

(** The cell of the citation column, stripped; empty when the row is too
    short. *)
Definition cell_name (file_col_index : nat) (row_data : list str) : str :=
  if (file_col_index <? List.length row_data)%nat
  then strip (nth file_col_index row_data [])
  else [].

(** The test of the two modes on a row number. *)
Definition row_wanted (mode : str) (start_row end_row : Z)
    (specific_rows : list Z) (actual_sheet_row : Z) : bool :=
  if str_eqb mode (lit "range")
  then (start_row <=? actual_sheet_row) && (actual_sheet_row <=? end_row)
  else if str_eqb mode (lit "list")
  then existsb (Z.eqb actual_sheet_row) specific_rows
  else false.

(** [for index, row_data in enumerate(data_rows)], from [index] on. *)
Fixpoint select_rows (mode : str) (start_row end_row : Z)
    (specific_rows : list Z) (file_col_index : nat) (index : Z)
    (data_rows : list (list str)) : list entry :=
  match data_rows with
  | [] => []
  | row_data :: rest =>
      let actual_sheet_row := index + 2 in
      let file_name := cell_name file_col_index row_data in
      let later :=
        select_rows mode start_row end_row specific_rows file_col_index
          (index + 1) rest in
      match file_name with
      | [] => later
      | _ =>
          if row_wanted mode start_row end_row specific_rows actual_sheet_row
          then {| row := actual_sheet_row; name := file_name |} :: later
          else later
      end
  end.

Definition get_files_from_sheet (all_rows : list (list str))
    (column_header mode : str) (start_row end_row : Z)
    (specific_rows : list Z) : sheet_result :=
  match all_rows with
  | [] => Exit 1
  | headers :: data_rows =>
      match index_of column_header headers with
      | None => Exit 1
      | Some file_col_index =>
          match select_rows mode start_row end_row specific_rows
                  file_col_index 0 data_rows with
          | [] => Exit 0
          | selected_files => Selected selected_files
          end
      end
  end.

(** A sheet for the examples: the header row and three rows, the second
    without a citation. *)
Definition sample_sheet : list (list str) :=
  [[lit "Title"; lit "Citation"];
   [lit "t1"; lit " Smith 2019 "];
   [lit "t2"];
   [lit "t3"; lit "Lee 2018"]].

Definition sample_selection : list entry :=
  [{| row := 2; name := lit "Smith 2019" |};
   {| row := 4; name := lit "Lee 2018" |}].

(** *** Lines *)

Definition no_line_break (c : ascii) : Prop :=
  is_code 13 c = false /\ is_linebreak c = false.

(** The lines, each ended by a line feed, as the request file is written. *)
Definition write_lines (lines : list str) : str :=
  List.concat (map (fun l => l ++ [ascii_of_N 10]) lines).

(** ** Examples *)

Example normalize_ex1 :
  normalize_text (lit "Smith, J. (2019). Deep  Learning.PDF")
  = lit "smith j 2019 deep learning".
Proof. reflexivity. Qed.

Example extract_year_ex1 :
  extract_year (lit "Smith, J. (2019). Deep Learning") = Some (lit "2019").
Proof. reflexivity. Qed.

Example extract_year_ex2 :
  extract_year (lit "smith_2019_deep_learning.pdf") = None.
Proof. reflexivity. Qed.

(** ** Facts on characters *)

Ltac each_char c := destruct c as [[] [] [] [] [] [] [] []].

Lemma alnum_lc_nospace c : alnum_lc c -> nospace c.
Proof. unfold alnum_lc, nospace. each_char c; vm_compute; congruence. Qed.

Lemma alnum_lc_not_32 c : alnum_lc c -> is_code 32 c = false.
Proof. unfold alnum_lc. each_char c; vm_compute; congruence. Qed.

Lemma keep_nospace_alnum c : keep_char c = true -> nospace c -> alnum_lc c.
Proof.
  unfold keep_char, nospace, alnum_lc. intros H Hs.
  rewrite Hs, orb_false_r in H. exact H.
Qed.

Lemma clean_lower c : is_clean_char c = true -> lower_char c = c.
Proof. each_char c; vm_compute; congruence. Qed.

Lemma clean_keep c : is_clean_char c = true -> keep_char c = true.
Proof. each_char c; vm_compute; congruence. Qed.

Lemma clean_not_dot c : is_clean_char c = true -> Ascii.eqb "."%char c = false.
Proof. each_char c; vm_compute; congruence. Qed.

Lemma clean_space c :
  is_clean_char c = true -> isspace c = true -> c = " "%char.
Proof. each_char c; vm_compute; congruence. Qed.

Lemma code_32 c : is_code 32 c = true -> c = " "%char.
Proof. each_char c; vm_compute; congruence. Qed.

Lemma is_nil_app_one (cur : str) c :
  match cur ++ [c] with [] => true | _ => false end = false.
Proof. destruct cur; reflexivity. Qed.

(** ** [split] and [join] *)

Lemma split_from_words (Q : ascii -> Prop) s :
  forall cur,
    Forall (fun c => nospace c -> Q c) s -> Forall Q cur ->
    Forall (word_of Q) (split_from cur s).
Proof.
  induction s as [|c rest IH]; intros cur Hs Hcur; simpl.
  - destruct cur; constructor; [split; [discriminate | assumption] | constructor].
  - inversion Hs as [|? ? Hc Hrest]; subst.
    destruct (isspace c) eqn:Ec.
    + destruct cur as [|x cur'].
      * apply IH; [assumption | constructor].
      * constructor; [split; [discriminate | assumption] |].
        apply IH; [assumption | constructor].
    + apply IH; [assumption |].
      apply Forall_app; split; [assumption |].
      constructor; [apply Hc; exact Ec | constructor].
Qed.

Lemma split_from_word_app w :
  Forall nospace w ->
  forall cur s, split_from cur (w ++ s) = split_from (cur ++ w) s.
Proof.
  induction 1 as [|c w Hc Hw IH]; intros cur s; simpl.
  - now rewrite app_nil_r.
  - rewrite Hc, IH, <- app_assoc. reflexivity.
Qed.

Lemma split_join ws :
  Forall (word_of nospace) ws -> split (join (lit " ") ws) = ws.
Proof.
  unfold split. induction 1 as [|w ws [Hne Hw] Hws IH]; [reflexivity |].
  destruct ws as [|w2 ws'].
  - simpl. rewrite <- (app_nil_r w) at 1.
    rewrite split_from_word_app by assumption. simpl.
    destruct w; [contradiction | reflexivity].
  - change (join (lit " ") (w :: w2 :: ws'))
      with (w ++ " "%char :: join (lit " ") (w2 :: ws')).
    rewrite split_from_word_app by assumption.
    cbn [app split_from]. change (isspace " ") with true. cbv iota.
    destruct w; [contradiction |]. now rewrite IH.
Qed.

Lemma join_nil_inv (Q : ascii -> Prop) ws :
  Forall (word_of Q) ws -> join (lit " ") ws = [] -> ws = [].
Proof.
  destruct 1 as [|w ws [Hne _] _]; [reflexivity |].
  destruct w; [contradiction |]. destruct ws; discriminate.
Qed.

(** ** [strip] and [collapse_ws] *)

Lemma rstrip_app a b :
  rstrip (a ++ b) = match rstrip b with [] => rstrip a | _ => a ++ rstrip b end.
Proof.
  induction a as [|c a IH]; simpl.
  - now destruct (rstrip b).
  - rewrite IH. destruct (rstrip b) as [|x r]; [reflexivity |].
    destruct a; reflexivity.
Qed.

Lemma rstrip_nospace w : Forall nospace w -> rstrip w = w.
Proof.
  induction 1 as [|c w Hc Hw IH]; simpl; [reflexivity |].
  rewrite IH, Hc. now destruct w.
Qed.

Lemma lstrip_collapse_run s :
  lstrip (collapse_from true s) = collapse_from true s.
Proof.
  induction s as [|c rest IH]; simpl; [reflexivity |].
  destruct (isspace c) eqn:Ec; [assumption |]. simpl. now rewrite Ec.
Qed.

Lemma strip_collapse s :
  strip (collapse_ws s) = rstrip (collapse_from true s).
Proof.
  unfold strip, collapse_ws. f_equal.
  destruct s as [|c rest]; simpl; [reflexivity |].
  destruct (isspace c) eqn:Ec; simpl.
  - change (isspace " ") with true. cbv iota. apply lstrip_collapse_run.
  - now rewrite Ec.
Qed.

Lemma join_split_from s :
  forall cur,
    Forall nospace cur ->
    join (lit " ") (split_from cur s)
    = rstrip (cur ++ collapse_from match cur with [] => true | _ => false end s).
Proof.
  induction s as [|c rest IH]; intros cur Hcur.
  - simpl. rewrite app_nil_r, rstrip_nospace by assumption. now destruct cur.
  - cbn [split_from collapse_from]. destruct (isspace c) eqn:Ec.
    + destruct cur as [|x cur'].
      * rewrite IH by constructor. reflexivity.
      * set (cur := x :: cur') in *.
        specialize (IH [] (Forall_nil _)). cbn [app] in IH.
        assert (Hw : Forall (word_of nospace) (split_from [] rest)).
        { apply split_from_words; [| constructor].
          apply Forall_forall. auto. }
        change (cur ++ " "%char :: collapse_from true rest)
          with (cur ++ [" "%char] ++ collapse_from true rest).
        rewrite app_assoc, rstrip_app, <- IH.
        destruct (split_from [] rest) as [|w ws] eqn:Ew.
        -- simpl join. rewrite rstrip_app.
           change (rstrip [" "%char]) with (@nil ascii). cbv iota.
           apply eq_sym, rstrip_nospace. assumption.
        -- destruct (join (lit " ") (w :: ws)) as [|y r] eqn:Ej.
           ++ apply (join_nil_inv nospace) in Ej; [discriminate | exact Hw].
           ++ change (join (lit " ") (cur :: w :: ws))
                with (cur ++ " "%char :: join (lit " ") (w :: ws)).
              rewrite Ej, <- app_assoc. reflexivity.
    + rewrite IH.
      * rewrite is_nil_app_one, <- app_assoc. reflexivity.
      * apply Forall_app; split; [assumption |].
        constructor; [exact Ec | constructor].
Qed.

Lemma join_split s : join (lit " ") (split s) = strip (collapse_ws s).
Proof.
  rewrite strip_collapse. unfold split.
  now rewrite join_split_from by constructor.
Qed.

(** ** The normalizer *)

Lemma replace_absent old new s :
  (forall c rest, old = c :: rest -> ~ In c s) -> old <> [] ->
  replace old new s = s.
Proof.
  unfold replace. intros Hold Hne.
  destruct old as [|o old']; [contradiction |].
  specialize (Hold o old' eq_refl).
  induction s as [|c rest IH]; [reflexivity |].
  cbn [replace_from starts_with].
  destruct (Ascii.eqb o c) eqn:E.
  - apply Ascii.eqb_eq in E. subst. exfalso. apply Hold. now left.
  - cbn [andb]. f_equal. apply IH. intro Hin. apply Hold. now right.
Qed.

Lemma map_fixed (f : ascii -> ascii) s :
  Forall (fun c => f c = c) s -> map f s = s.
Proof. induction 1; simpl; congruence. Qed.

(** The words the normalizer joins. *)
Lemma normalize_words text :
  exists ws,
    normalize_text text = join (lit " ") ws /\ Forall (word_of alnum_lc) ws.
Proof.
  unfold normalize_text.
  eexists; split; [reflexivity |].
  apply split_from_words; [| constructor].
  unfold sub_non_alnum. apply Forall_forall. intros c Hin Hc.
  apply in_map_iff in Hin. destruct Hin as (d & <- & _).
  destruct (keep_char d) eqn:Ed.
  - apply keep_nospace_alnum; assumption.
  - discriminate Hc.
Qed.

Lemma well_spaced_word w :
  Forall alnum_lc w ->
  forall t, well_spaced false (w ++ t) = well_spaced false t.
Proof.
  induction 1 as [|c w Hc Hw IH]; intro t; [reflexivity |].
  cbn [app well_spaced]. rewrite (alnum_lc_not_32 c Hc), Hc. apply IH.
Qed.

Lemma well_spaced_word_start b w t :
  word_of alnum_lc w -> well_spaced b (w ++ t) = well_spaced false t.
Proof.
  intros [Hne Hw]. destruct w as [|c w]; [contradiction |].
  inversion Hw as [|? ? Hc Hw']; subst.
  cbn [app well_spaced]. rewrite (alnum_lc_not_32 c Hc), Hc.
  now apply well_spaced_word.
Qed.

Lemma well_spaced_join ws :
  Forall (word_of alnum_lc) ws -> ws <> [] ->
  well_spaced true (join (lit " ") ws) = true.
Proof.
  induction 1 as [|w ws Hw Hws IH]; intro Hne; [contradiction |].
  destruct ws as [|w2 ws'].
  - simpl. rewrite <- (app_nil_r w), well_spaced_word_start by assumption.
    reflexivity.
  - change (join (lit " ") (w :: w2 :: ws'))
      with (w ++ " "%char :: join (lit " ") (w2 :: ws')).
    rewrite well_spaced_word_start by assumption.
    cbn [well_spaced]. change (is_code 32 " ") with true. cbv iota.
    apply IH. discriminate.
Qed.

Lemma well_spaced_clean s :
  forall b, well_spaced b s = true -> Forall (fun c => is_clean_char c = true) s.
Proof.
  induction s as [|c rest IH]; intros b H; [constructor |].
  cbn [well_spaced] in H.
  destruct (is_code 32 c) eqn:E; apply andb_true_iff in H; destruct H as [H1 H];
    (constructor; [unfold is_clean_char | eauto]).
  - rewrite E. apply orb_true_r.
  - now rewrite H1.
Qed.

Lemma well_spaced_first c rest :
  well_spaced true (c :: rest) = true -> alnum_lc c.
Proof.
  cbn [well_spaced]. destruct (is_code 32 c); [discriminate |].
  intro H. apply andb_true_iff in H. apply H.
Qed.

Lemma well_spaced_last pre c :
  forall b, well_spaced b (pre ++ [c]) = true -> alnum_lc c.
Proof.
  induction pre as [|x pre IH]; intros b H; cbn [app well_spaced] in H.
  - destruct (is_code 32 c).
    + rewrite andb_false_r in H. discriminate.
    + apply andb_true_iff in H. apply H.
  - destruct (is_code 32 x); apply andb_true_iff in H; destruct H; eauto.
Qed.

Lemma well_spaced_no_double pre post :
  forall b, well_spaced b (pre ++ " "%char :: " "%char :: post) = false.
Proof.
  induction pre as [|x pre IH]; intro b; cbn [app well_spaced].
  - change (is_code 32 " ") with true. cbv iota.
    now rewrite andb_false_r.
  - destruct (is_code 32 x); rewrite IH; now rewrite andb_false_r.
Qed.

Lemma normalize_well_spaced text :
  normalize_text text = [] \/ well_spaced true (normalize_text text) = true.
Proof.
  destruct (normalize_words text) as (ws & -> & Hws).
  destruct ws as [|w ws]; [now left | right].
  apply well_spaced_join; [assumption | discriminate].
Qed.

(** The normalizer leaves a string of joined clean words alone. *)
Lemma normalize_joined ws :
  Forall (word_of alnum_lc) ws ->
  normalize_text (join (lit " ") ws) = join (lit " ") ws.
Proof.
  intro Hws.
  assert (Hclean : Forall (fun c => is_clean_char c = true) (join (lit " ") ws)).
  { destruct ws as [|w ws']; [constructor |].
    apply (well_spaced_clean _ true), well_spaced_join;
      [assumption | discriminate]. }
  unfold normalize_text, lower.
  rewrite map_fixed
    by (eapply Forall_impl; [| exact Hclean]; intros; now apply clean_lower).
  rewrite replace_absent.
  - unfold sub_non_alnum.
    rewrite map_fixed.
    + rewrite split_join; [reflexivity |].
      eapply Forall_impl; [| exact Hws]. intros w [Hne Hw]. split; [exact Hne |].
      eapply Forall_impl; [| exact Hw]. apply alnum_lc_nospace.
    + eapply Forall_impl; [| exact Hclean]. intros c Hc.
      now rewrite (clean_keep c Hc).
  - intros c rest E Hin. injection E as <- _.
    rewrite Forall_forall in Hclean. apply Hclean in Hin. discriminate Hin.
  - discriminate.
Qed.

(** C5, as stated, fails: [.pdf] inside the text is removed as well. *)
Lemma normalize_text_not_suffix_only :
  normalize_text (lit "a.pdfb") = lit "ab"
  /\ normalize_spec (lit "a.pdfb") = lit "a pdfb"
  /\ normalize_text (lit "a.pdfb") <> normalize_spec (lit "a.pdfb").
Proof. repeat split. discriminate. Qed.

(** C5, amended: [normalize_text] lower-cases the string, removes every
    occurrence of the literal [.pdf] (found left to right, in one pass),
    replaces every character outside [[a-z0-9\s]] with a space, collapses
    every run of white space to a single space and trims both ends. *)
Theorem normalize_text_refines_ref :
  forall text, normalize_text text = normalize_ref text.
Proof.
  intro text. unfold normalize_text, normalize_ref. apply join_split.
Qed.

(** C9: the normalizer is idempotent. *)
Theorem normalize_text_idempotent :
  forall x, normalize_text (normalize_text x) = normalize_text x.
Proof.
  intro x. destruct (normalize_words x) as (ws & -> & Hws).
  now apply normalize_joined.
Qed.

(** C10: the output of the normalizer holds lower-case ASCII letters,
    digits and single spaces only: every character is in [a-z], [0-9] or is
    the space (so there is no upper-case letter and no punctuation), the
    first and the last character are not white space, and no white-space
    character is followed by another one. *)
Theorem normalize_text_output_shape :
  forall text,
    let out := normalize_text text in
    Forall (fun c => is_az c = true \/ is_09 c = true \/ c = " "%char) out
    /\ (forall c rest, out = c :: rest -> isspace c = false)
    /\ (forall pre c, out = pre ++ [c] -> isspace c = false)
    /\ (forall pre a b post,
          out = pre ++ a :: b :: post -> isspace a = true -> isspace b = false).
Proof.
  intros text out. subst out.
  destruct (normalize_well_spaced text) as [-> | H].
  - repeat split; [constructor | discriminate | |];
      intros pre; destruct pre; discriminate.
  - assert (Hclean := well_spaced_clean _ _ H).
    split; [| split; [| split]].
    + eapply Forall_impl; [| exact Hclean]. intros c Hc.
      unfold is_clean_char in Hc.
      destruct (is_az c); [now left |]. destruct (is_09 c); [now right; left |].
      right; right. now apply code_32.
    + intros c rest E. rewrite E in H.
      apply alnum_lc_nospace. eapply well_spaced_first; eassumption.
    + intros pre c E. rewrite E in H.
      apply alnum_lc_nospace. eapply well_spaced_last; eassumption.
    + intros pre a b post E Ha.
      destruct (isspace b) eqn:Eb; [exfalso | reflexivity].
      rewrite E in H, Hclean.
      rewrite Forall_forall in Hclean.
      assert (a = " "%char) as ->
        by (apply clean_space; [apply Hclean | exact Ha];
            apply in_or_app; right; now left).
      assert (b = " "%char) as ->
        by (apply clean_space; [apply Hclean | exact Eb];
            apply in_or_app; right; right; now left).
      rewrite well_spaced_no_double in H. discriminate.
Qed.

(** ** The year token *)

Lemma year_token_length y : year_token y = true -> List.length y = 4%nat.
Proof.
  destruct y as [|a [|b [|c [|d [|e y]]]]]; simpl; try discriminate.
  reflexivity.
Qed.

Lemma app_same_length (a b x y : str) :
  List.length a = List.length b -> a ++ x = b ++ y -> a = b /\ x = y.
Proof.
  revert b. induction a as [|c a IH]; intros [|d b] Hl E;
    try discriminate; simpl in *.
  - now split.
  - injection E as -> E. injection Hl as Hl.
    destruct (IH b Hl E) as [-> ->]. now split.
Qed.

Lemma word_before_snoc pre c : word_before (pre ++ [c]) = is_word c.
Proof. unfold word_before. now rewrite rev_app_distr. Qed.

Lemma year_here_true prev s :
  year_here prev s = true ->
  prev = false /\ year_token (firstn 4 s) = true
  /\ word_after (skipn 4 s) = false /\ s = firstn 4 s ++ skipn 4 s.
Proof.
  destruct s as [|a [|b [|c [|d tl]]]]; simpl; try discriminate.
  intro H. repeat (apply andb_true_iff in H; destruct H as [H ?]).
  apply negb_true_iff in H. repeat split; try assumption.
  - now rewrite H3, H2, H1.
  - destruct tl; [reflexivity | now apply negb_true_iff].
Qed.

Lemma year_here_complete y post :
  year_token y = true -> word_after post = false ->
  year_here false (y ++ post) = true.
Proof.
  destruct y as [|a [|b [|c [|d [|e y]]]]]; simpl; try discriminate.
  intros H Hp. rewrite H. destruct post; [reflexivity |].
  simpl in Hp. now rewrite Hp.
Qed.

(** What the search finds from [s] on, [pre] being the text before [s]. *)
Lemma search_year_spec s :
  forall pre,
    match search_year (word_before pre) s with
    | Some y =>
        exists p post,
          s = p ++ y ++ post /\ year_token y = true
          /\ word_before (pre ++ p) = false /\ word_after post = false
          /\ forall p' y' post',
               s = p' ++ y' ++ post' -> year_token y' = true ->
               word_before (pre ++ p') = false -> word_after post' = false ->
               (List.length p <= List.length p')%nat
    | None =>
        forall p' y' post',
          s = p' ++ y' ++ post' -> year_token y' = true ->
          word_before (pre ++ p') = false -> word_after post' = false ->
          False
    end.
Proof.
  induction s as [|c rest IH]; intro pre.
  - simpl. intros p' y' post' E Hy _ _.
    apply eq_sym, app_eq_nil in E. destruct E as [_ E].
    apply app_eq_nil in E. destruct E as [-> _]. discriminate.
  - cbn [search_year]. destruct (year_here (word_before pre) (c :: rest)) eqn:Eh.
    + apply year_here_true in Eh. destruct Eh as (Hb & Hy & Hp & Es).
      exists [], (skipn 4 (c :: rest)). rewrite app_nil_r.
      repeat split; try assumption. intros. simpl. lia.
    + specialize (IH (pre ++ [c])). rewrite word_before_snoc in IH.
      assert (Hhead : forall p' y' post',
                 c :: rest = p' ++ y' ++ post' -> year_token y' = true ->
                 word_before (pre ++ p') = false -> word_after post' = false ->
                 exists p'', p' = c :: p'' /\ rest = p'' ++ y' ++ post'
                             /\ word_before ((pre ++ [c]) ++ p'') = false).
      { intros [|d p''] y' post' E Hy Hb Hp.
        - exfalso. rewrite app_nil_r in Hb. simpl in E.
          rewrite E, Hb, year_here_complete in Eh by assumption. discriminate.
        - injection E as <- E. exists p''. rewrite <- app_assoc. auto. }
      destruct (search_year (is_word c) rest) as [y|].
      * destruct IH as (p & post & Es & Hy & Hb & Hp & Hmin).
        exists (c :: p), post. rewrite <- app_assoc in Hb.
        repeat split; try assumption; [simpl; now f_equal |].
        intros p' y' post' E' Hy' Hb' Hp'.
        destruct (Hhead p' y' post' E' Hy' Hb' Hp') as (p'' & -> & E'' & Hb'').
        simpl. apply le_n_S. eapply Hmin; eassumption.
      * intros p' y' post' E' Hy' Hb' Hp'.
        destruct (Hhead p' y' post' E' Hy' Hb' Hp') as (p'' & -> & E'' & Hb'').
        eapply IH; eassumption.
Qed.

Lemma extract_year_token text y :
  extract_year text = Some y -> year_token y = true.
Proof.
  unfold extract_year. intro E.
  pose proof (search_year_spec text []) as H.
  change (word_before []) with false in H. rewrite E in H.
  destruct H as (p & post & _ & Hy & _). exact Hy.
Qed.

(** On the pattern's own terms: the result is the first year token with
    no word character ([\w]) on either side. *)
Lemma extract_year_first_word_delimited :
  forall text,
    (forall y,
        extract_year text = Some y <->
        exists pre post,
          year_occurrence text pre y post
          /\ forall pre' y' post',
               year_occurrence text pre' y' post' ->
               (List.length pre <= List.length pre')%nat)
    /\ (extract_year text = None <->
        forall pre y post, ~ year_occurrence text pre y post).
Proof.
  intro text. unfold extract_year, year_occurrence.
  pose proof (search_year_spec text []) as H.
  change (word_before []) with false in H. cbn [app] in H.
  destruct (search_year false text) as [y0|].
  - destruct H as (p & post & Es & Hy & Hb & Hp & Hmin). split.
    + intro y. split.
      * intro E. injection E as <-. exists p, post.
        repeat split; try assumption.
        intros pre' y' post' (E' & Hy' & Hb' & Hp'). eauto.
      * intros (pre & post1 & (E1 & Hy1 & Hb1 & Hp1) & Hmin1).
        assert (Hl : List.length p = List.length pre).
        { apply Nat.le_antisymm; [eauto |]. apply (Hmin1 p y0 post). auto. }
        rewrite Es in E1. apply app_same_length in E1; [| exact Hl].
        destruct E1 as [_ E1]. apply app_same_length in E1.
        -- destruct E1 as [-> _]. reflexivity.
        -- now rewrite !year_token_length.
    + split; [discriminate |]. intro Hno. exfalso.
      apply (Hno p y0 post). auto.
  - split.
    + intro y. split; [discriminate |].
      intros (pre & post & (E & Hy & Hb & Hp) & _). exfalso. eauto.
    + split; [| reflexivity]. intros _ pre y post (E & Hy & Hb & Hp). eauto.
Qed.

Lemma no_underscore_app a b :
  no_underscore (a ++ b) -> no_underscore a /\ no_underscore b.
Proof. unfold no_underscore. apply Forall_app. Qed.

Lemma no_underscore_word_before pre :
  no_underscore pre -> word_before pre = alnum_before pre.
Proof.
  unfold word_before, alnum_before, no_underscore. intro H.
  apply Forall_rev in H. destruct (rev pre) as [|c r]; [reflexivity |].
  inversion H as [|? ? Hc _]; subst. unfold is_word.
  now rewrite Hc, orb_false_r.
Qed.

Lemma no_underscore_word_after post :
  no_underscore post -> word_after post = alnum_after post.
Proof.
  unfold word_after, alnum_after, no_underscore. intro H.
  destruct post as [|c r]; [reflexivity |].
  inversion H as [|? ? Hc _]; subst. unfold is_word.
  now rewrite Hc, orb_false_r.
Qed.

Lemma standalone_year_occurrence text pre y post :
  no_underscore text ->
  standalone_year text pre y post <-> year_occurrence text pre y post.
Proof.
  intro Hu. unfold standalone_year, year_occurrence.
  split; intros (E & Hy & Hb & Ha); (split; [exact E |]);
    (split; [exact Hy |]); rewrite E in Hu;
    apply no_underscore_app in Hu; destruct Hu as [Hpre Hu];
    apply no_underscore_app in Hu; destruct Hu as [_ Hpost];
    rewrite (no_underscore_word_before pre Hpre),
      (no_underscore_word_after post Hpost) in *; now split.
Qed.

(** C6, as stated, fails: a year token with a letter in front of it is
    not found. *)
Lemma extract_year_skips_year_inside_word :
  extract_year (lit "x2019") = None
  /\ first_year_substring (lit "x2019") = Some (lit "2019")
  /\ extract_year (lit "x2019") <> first_year_substring (lit "x2019").
Proof. repeat split. discriminate. Qed.

(** C6, amended: on a string without underscore, [extract_year] returns
    the first substring that is a 4-digit number beginning with 19 or 20
    and that has neither a letter nor a digit immediately before or after
    it; it returns none exactly when no such substring exists.  Nothing is
    stated on a string with an underscore. *)
Theorem extract_year_first_standalone :
  forall text,
    no_underscore text ->
    (forall y,
        extract_year text = Some y <->
        exists pre post,
          standalone_year text pre y post
          /\ forall pre' y' post',
               standalone_year text pre' y' post' ->
               (List.length pre <= List.length pre')%nat)
    /\ (extract_year text = None <->
        forall pre y post, ~ standalone_year text pre y post).
Proof.
  intros text Hu.
  destruct (extract_year_first_word_delimited text) as [Hsome Hnone].
  split.
  - intro y. rewrite Hsome. split.
    + intros (pre & post & Hocc & Hmin). exists pre, post. split.
      * now apply standalone_year_occurrence.
      * intros pre' y' post' H'. apply (Hmin pre' y' post').
        now apply standalone_year_occurrence.
    + intros (pre & post & Hocc & Hmin). exists pre, post. split.
      * now apply standalone_year_occurrence.
      * intros pre' y' post' H'. apply (Hmin pre' y' post').
        now apply standalone_year_occurrence.
  - rewrite Hnone. split; intros H pre y post Hocc; apply (H pre y post);
      now apply standalone_year_occurrence.
Qed.

Lemma extract_year_first_standalone_witness :
  (forall y,
      extract_year (lit "Smith (2019) x2020") = Some y <->
      exists pre post,
        standalone_year (lit "Smith (2019) x2020") pre y post
        /\ forall pre' y' post',
             standalone_year (lit "Smith (2019) x2020") pre' y' post' ->
             (List.length pre <= List.length pre')%nat)
  /\ (extract_year (lit "Smith (2019) x2020") = None <->
      forall pre y post,
        ~ standalone_year (lit "Smith (2019) x2020") pre y post).
Proof.
  apply (extract_year_first_standalone (lit "Smith (2019) x2020")).
  repeat constructor.
Defined.

(** ** The matcher *)

Lemma fold_left_invariant {A B : Type} (f : A -> B -> A) (P : A -> Prop)
    (l : list B) :
  (forall a b, In b l -> P a -> P (f a b)) ->
  forall a, P a -> P (fold_left f l a).
Proof.
  induction l as [|b l IH]; intros Hstep a Ha; simpl; [assumption |].
  apply IH.
  - intros a' b' Hin. apply Hstep. now right.
  - apply Hstep; [now left | assumption].
Qed.

Lemma str_eqb_neq a b : a <> b -> str_eqb a b = false.
Proof. unfold str_eqb. now destruct (list_eq_dec ascii_dec a b). Qed.

Lemma years_differ_mismatch citation file_name :
  years_differ citation file_name ->
  year_mismatch (extract_year citation) (extract_year file_name) = true.
Proof.
  intros (y1 & y2 & E1 & E2 & Hne). rewrite E1, E2.
  apply extract_year_token in E1, E2.
  destruct y1; [discriminate |]. destruct y2; [discriminate |].
  unfold year_mismatch. cbn [truthy opt_str_eqb andb].
  now rewrite str_eqb_neq.
Qed.

(** The score [s + l / 1000] as a fraction over 1000. *)
Lemma score_fraction s l :
  (inject_Z s + inject_Z l / 1000)%Q = Qmake (s * 1000 + l * 1) 1000.
Proof. unfold Qplus, Qdiv, Qmult, Qinv, inject_Z. simpl. f_equal. lia. Qed.

Lemma int_of_Q_above_minus_one q :
  (inject_Z (-1) < q)%Q -> 0 <= int_of_Q q.
Proof.
  destruct q as [n d]. unfold Qlt, int_of_Q. simpl. intro H.
  destruct (Z_lt_le_dec n 0) as [Hn | Hn].
  - replace n with (- (- n)) by lia.
    rewrite Z.quot_opp_l by lia. rewrite Z.quot_small; lia.
  - apply Z.quot_pos; lia.
Qed.

Lemma int_of_score s l :
  0 <= l < 1000 -> (inject_Z (-1) < inject_Z s + inject_Z l / 1000)%Q ->
  int_of_Q (inject_Z s + inject_Z l / 1000) = Z.max 0 s.
Proof.
  rewrite score_fraction. unfold Qlt, int_of_Q. simpl. intros Hl H.
  destruct (Z_lt_le_dec s 0) as [Hs | Hs].
  - assert (s = -1) as -> by lia.
    replace (-1 * 1000 + l * 1) with (- (1000 - l)) by lia.
    rewrite Z.quot_opp_l by lia. rewrite Z.quot_small; lia.
  - rewrite Z.quot_div_nonneg by lia.
    rewrite Z.max_r by lia. symmetry.
    apply (Z.div_unique _ _ s l); lia.
Qed.

Section MatcherFacts.

Variables token_set_ratio partial_ratio : str -> str -> Z.

Lemma loop_invariant citation local_files :
  best_so_far token_set_ratio partial_ratio citation local_files
    (fold_left
       (match_step token_set_ratio partial_ratio (normalize_text citation)
          (extract_year citation))
       local_files (None, inject_Z (-1))).
Proof.
  apply fold_left_invariant; [| reflexivity].
  intros [best_file best_score] file_name Hin Hst. unfold match_step.
  destruct (year_mismatch _ _) eqn:Eg; [exact Hst |].
  destruct (Qgt_bool _ best_score) eqn:Egt; [| exact Hst].
  unfold Qgt_bool in Egt. apply negb_true_iff in Egt.
  assert (Hlt : (best_score < inject_Z
                   (similarity token_set_ratio partial_ratio
                      (normalize_text citation) (normalize_text file_name))
                 + tie_break (normalize_text file_name))%Q).
  { apply Qnot_le_lt. intro Hle. apply Qle_bool_iff in Hle. congruence. }
  unfold best_so_far. cbn [fst snd]. repeat split; try assumption.
  eapply Qle_lt_trans; [| exact Hlt].
  unfold best_so_far in Hst. cbn [fst snd] in Hst.
  destruct best_file.
  - apply Qlt_le_weak. apply Hst.
  - rewrite Hst. apply Qle_refl.
Qed.

Lemma find_best_unfold citation local_files :
  exists st,
    best_so_far token_set_ratio partial_ratio citation local_files st
    /\ find_best_local_match token_set_ratio partial_ratio citation
         local_files
       = (fst st, Z.min (int_of_Q (snd st)) 100).
Proof.
  eexists. split; [apply loop_invariant |].
  unfold find_best_local_match. now destruct (fold_left _ _ _).
Qed.

(** C1: a file name whose year token differs from the citation's is
    never the selected match, whatever the two similarity functions
    return. *)
Theorem year_guardrail_absolute :
  forall citation file_name local_files y1 y2,
    extract_year citation = Some y1 ->
    extract_year file_name = Some y2 ->
    y1 <> y2 ->
    fst (find_best_local_match token_set_ratio partial_ratio citation
           local_files) <> Some file_name.
Proof.
  intros citation file_name local_files y1 y2 E1 E2 Hne Hsel.
  destruct (find_best_unfold citation local_files) as (st & Hst & E).
  rewrite E in Hsel. cbn [fst] in Hsel.
  unfold best_so_far in Hst. rewrite Hsel in Hst.
  destruct Hst as (_ & Hg & _).
  rewrite years_differ_mismatch in Hg; [discriminate |].
  now exists y1, y2.
Qed.

(** C2, amended: the confidence is an integer in [[-1,100]]: it is -1
    when no file name is selected and lies in [[0,100]] when one is. *)
Theorem confidence_range :
  forall citation local_files,
    match find_best_local_match token_set_ratio partial_ratio citation
            local_files with
    | (None, confidence) => confidence = -1
    | (Some _, confidence) => 0 <= confidence <= 100
    end.
Proof.
  intros citation local_files.
  destruct (find_best_unfold citation local_files) as ([bf bs] & Hst & ->).
  unfold best_so_far in Hst. cbn [fst snd] in *.
  destruct bf as [f|].
  - destruct Hst as (_ & _ & _ & Hlt).
    apply int_of_Q_above_minus_one in Hlt. lia.
  - rewrite Hst. reflexivity.
Qed.

(** C3: on the empty candidate list, and on a list whose every candidate
    the year guardrail eliminates, the result is no file name with the
    confidence -1; the function is total, it returns on every input. *)
Theorem no_candidate_sentinel :
  forall citation,
    find_best_local_match token_set_ratio partial_ratio citation []
    = (None, -1)
    /\ forall local_files,
         (forall f, In f local_files -> years_differ citation f) ->
         find_best_local_match token_set_ratio partial_ratio citation
           local_files = (None, -1).
Proof.
  intro citation. split; [reflexivity |].
  intros local_files Hall.
  destruct (find_best_unfold citation local_files) as ([bf bs] & Hst & ->).
  unfold best_so_far in Hst. cbn [fst snd] in *.
  destruct bf as [f|].
  - destruct Hst as (Hin & Hg & _).
    rewrite years_differ_mismatch in Hg by auto. discriminate.
  - rewrite Hst. reflexivity.
Qed.

(** C4, amended: for every candidate whose normalized name is shorter
    than 1000 characters the tie-break bonus is below 1 point, and when
    such a candidate wins, the confidence is its similarity without the
    bonus, clamped to [[0,100]]. *)
Theorem tie_break_excluded :
  forall citation local_files file_name,
    In file_name local_files ->
    len (normalize_text file_name) < 1000 ->
    (0 <= tie_break (normalize_text file_name))%Q
    /\ (tie_break (normalize_text file_name) < 1)%Q
    /\ forall confidence,
         find_best_local_match token_set_ratio partial_ratio citation
           local_files = (Some file_name, confidence) ->
         confidence
         = clamp_0_100
             (similarity token_set_ratio partial_ratio
                (normalize_text citation) (normalize_text file_name)).
Proof.
  intros citation local_files file_name _ Hlen.
  assert (H0 : 0 <= len (normalize_text file_name)) by (unfold len; lia).
  split; [| split].
  - unfold tie_break, Qle, Qdiv, Qmult, Qinv, inject_Z. simpl. lia.
  - unfold tie_break, Qlt, Qdiv, Qmult, Qinv, inject_Z. simpl. lia.
  - intros confidence E.
    destruct (find_best_unfold citation local_files) as ([bf bs] & Hst & E').
    rewrite E in E'. cbn [fst snd] in E'. injection E' as <- ->.
    unfold best_so_far in Hst. cbn [fst snd] in Hst.
    destruct Hst as (_ & _ & -> & Hlt). unfold tie_break in *.
    rewrite int_of_score by (auto; lia).
    unfold clamp_0_100. lia.
Qed.

End MatcherFacts.

Lemma year_guardrail_absolute_witness :
  fst (find_best_local_match (fun _ _ => 100) (fun _ _ => 100)
         (lit "Smith, J. (2019). Deep Learning Methods")
         [lit "smith 2020 deep learning.pdf"; lit "smith 2019 deep learning.pdf"])
  <> Some (lit "smith 2020 deep learning.pdf").
Proof.
  apply (year_guardrail_absolute (fun _ _ => 100) (fun _ _ => 100)
           (lit "Smith, J. (2019). Deep Learning Methods")
           (lit "smith 2020 deep learning.pdf") _ (lit "2019") (lit "2020"));
    [reflexivity | reflexivity | discriminate].
Defined.

(** C2, as stated, fails: with no candidate the confidence is -1. *)
Lemma confidence_below_zero_without_candidate :
  snd (find_best_local_match (fun _ _ => 0) (fun _ _ => 0) (lit "x") []) = -1
  /\ ~ (0 <= snd (find_best_local_match (fun _ _ => 0) (fun _ _ => 0)
                    (lit "x") []) <= 100).
Proof. split; [reflexivity |]. vm_compute. intros [H _]. now apply H. Qed.

Lemma no_candidate_sentinel_witness :
  find_best_local_match (fun _ _ => 100) (fun _ _ => 100)
    (lit "Smith, J. (2019). Deep Learning Methods")
    [lit "smith 2020 deep learning.pdf"]
  = (None, -1).
Proof.
  apply (proj2 (no_candidate_sentinel (fun _ _ => 100) (fun _ _ => 100) _)).
  intros f [<- | []]. exists (lit "2019"), (lit "2020").
  repeat split. discriminate.
Defined.

(** C4, as stated, fails: on a name of 1000 characters the bonus is a
    whole point and shows in the confidence. *)
Lemma tie_break_reaches_one_point :
  ~ (tie_break (normalize_text long_name) < 1)%Q
  /\ similarity (fun _ _ => 50) (fun _ _ => 50)
       (normalize_text (lit "a")) (normalize_text long_name) = 50
  /\ find_best_local_match (fun _ _ => 50) (fun _ _ => 50) (lit "a")
       [long_name] = (Some long_name, 51).
Proof.
  split; [| split].
  - vm_compute. discriminate.
  - vm_compute. reflexivity.
  - vm_compute. reflexivity.
Qed.

Lemma tie_break_excluded_witness :
  (tie_break (normalize_text (lit "smith 2019 deep learning.pdf")) < 1)%Q
  /\ 87 = clamp_0_100
            (similarity (fun _ _ => 87) (fun _ _ => 60)
               (normalize_text (lit "Smith, J. (2019). Deep Learning Methods"))
               (normalize_text (lit "smith 2019 deep learning.pdf"))).
Proof.
  destruct (tie_break_excluded (fun _ _ => 87) (fun _ _ => 60)
              (lit "Smith, J. (2019). Deep Learning Methods")
              [lit "smith 2019 deep learning.pdf"]
              (lit "smith 2019 deep learning.pdf"))
    as (_ & Hb & Hc).
  - simpl. left. reflexivity.
  - vm_compute. reflexivity.
  - split; [exact Hb | apply Hc; vm_compute; reflexivity].
Defined.

(** ** Parsing and ordering the results *)

Section SortFacts.

Context {A : Type} (key : A -> Z).

Lemma insert_by_perm x l : Permutation (insert_by key x l) (x :: l).
Proof.
  induction l as [|y l IH]; simpl; [reflexivity |].
  destruct (key x <=? key y); [reflexivity |].
  rewrite IH. apply perm_swap.
Qed.

Lemma sort_by_perm l : Permutation (sort_by key l) l.
Proof.
  induction l as [|x l IH]; simpl; [reflexivity |].
  rewrite insert_by_perm. now constructor.
Qed.

Lemma insert_by_sorted x l :
  StronglySorted (key_le key) l -> StronglySorted (key_le key) (insert_by key x l).
Proof.
  induction 1 as [|y l Hs IH Hy]; simpl.
  - repeat constructor.
  - destruct (key x <=? key y) eqn:E.
    + apply Z.leb_le in E. constructor; [now constructor |].
      constructor; [exact E |].
      eapply Forall_impl; [| exact Hy]. unfold key_le. intros; lia.
    + apply Z.leb_gt in E. constructor; [exact IH |].
      eapply Permutation_Forall; [symmetry; apply insert_by_perm |].
      constructor; [unfold key_le; lia | exact Hy].
Qed.

Lemma sort_by_sorted l : StronglySorted (key_le key) (sort_by key l).
Proof.
  induction l as [|x l IH]; simpl; [constructor |].
  now apply insert_by_sorted.
Qed.

Lemma sorted_perm_keys l1 :
  forall l2,
    StronglySorted (key_le key) l1 -> StronglySorted (key_le key) l2 ->
    Permutation l1 l2 -> map key l1 = map key l2.
Proof.
  assert (Hmap : forall l l', Permutation l l' ->
                   Permutation (map key l) (map key l'))
    by (intros; now apply Permutation_map).
  assert (Hz : forall k1 : list Z,
             forall k2, StronglySorted Z.le k1 -> StronglySorted Z.le k2 ->
                        Permutation k1 k2 -> k1 = k2).
  { induction k1 as [|x k1 IH]; intros k2 H1 H2 Hp.
    - now apply Permutation_nil in Hp.
    - destruct k2 as [|y k2];
        [apply Permutation_sym, Permutation_nil in Hp; discriminate |].
      apply StronglySorted_inv in H1, H2.
      destruct H1 as [H1 Hx], H2 as [H2 Hy].
      assert (x = y) as <-.
      { rewrite Forall_forall in Hx, Hy.
        assert (Hin1 : In y (x :: k1))
          by (eapply Permutation_in; [symmetry; exact Hp | now left]).
        assert (Hin2 : In x (y :: k2))
          by (eapply Permutation_in; [exact Hp | now left]).
        destruct Hin1 as [-> | Hin1]; [reflexivity |].
        destruct Hin2 as [-> | Hin2]; [reflexivity |].
        apply Hx in Hin1. apply Hy in Hin2. lia. }
      f_equal. apply IH; try assumption.
      eapply Permutation_cons_inv; eassumption. }
  assert (Hs : forall l, StronglySorted (key_le key) l ->
                 StronglySorted Z.le (map key l)).
  { induction 1 as [|x l Hl IH Hx]; simpl; constructor; [exact IH |].
    rewrite Forall_map. exact Hx. }
  intros l2 H1 H2 Hp. apply Hz; auto.
Qed.

End SortFacts.

Section ReconcilerFacts.

Variable json_loads : str -> option json.
Variable int_of_str : str -> option Z.

Ltac step_line :=
  cbn [bind dict_get as_str py_in getitem getitem0 fst snd];
  match goal with
  | |- context [match field_or_null ?k ?f with _ => _ end] =>
      destruct (field_or_null k f)
  | |- context [match lookup ?k ?f with _ => _ end] =>
      destruct (lookup k f) as [[] |]
  | |- context [match json_loads ?x with _ => _ end] =>
      destruct (json_loads x) as [[] |]
  | |- context [match int_of_str ?x with _ => _ end] =>
      destruct (int_of_str x)
  | |- context [match ?l with [] => _ | _ :: _ => _ end] =>
      is_var l; destruct l as [| [] ?]
  | |- context [if ?b then _ else _] => destruct b
  end.

(** The body of [try:] appends the row of a usable line and appends
    nothing on any other line. *)
Lemma try_line_spec line :
  match usable_row json_loads int_of_str line with
  | Some r => try_line json_loads int_of_str line = Ok (Appended r)
  | None =>
      (exists row_num,
          try_line json_loads int_of_str line = Ok (Model_failed row_num))
      \/ (exists e, try_line json_loads int_of_str line = Raise e)
  end.
Proof.
  unfold usable_row, try_line, response_text, loads, to_int.
  repeat step_line;
    cbn [bind dict_get as_str py_in getitem getitem0 fst snd];
    first [reflexivity | left; eexists; reflexivity
          | right; eexists; reflexivity].
Qed.

Lemma parse_step_usable line r :
  usable_row json_loads int_of_str line = Some r ->
  parse_step json_loads int_of_str ([], []) line = ([r], []).
Proof.
  intro E. pose proof (try_line_spec line) as H. rewrite E in H.
  unfold parse_step. now rewrite H.
Qed.

Lemma parse_step_unusable line :
  usable_row json_loads int_of_str line = None ->
  exists d, parse_step json_loads int_of_str ([], []) line = ([], [d]).
Proof.
  intro E. pose proof (try_line_spec line) as H. rewrite E in H.
  unfold parse_step.
  destruct H as [[row_num ->] | [e ->]]; eexists; reflexivity.
Qed.

Lemma parse_step_state results printed line :
  parse_step json_loads int_of_str (results, printed) line
  = (results ++ fst (parse_step json_loads int_of_str ([], []) line),
     printed ++ snd (parse_step json_loads int_of_str ([], []) line)).
Proof.
  unfold parse_step.
  destruct (try_line json_loads int_of_str line) as [[r | row_num] | e];
    cbn [fst snd app]; now rewrite ?app_nil_r.
Qed.

Lemma parse_fold lines :
  forall results printed,
    fold_left (parse_step json_loads int_of_str) lines (results, printed)
    = (results ++ fst (parse_results json_loads int_of_str lines),
       printed ++ snd (parse_results json_loads int_of_str lines)).
Proof.
  unfold parse_results.
  induction lines as [|line lines IH]; intros results printed.
  - simpl. now rewrite !app_nil_r.
  - cbn [fold_left]. rewrite parse_step_state.
    destruct (parse_step json_loads int_of_str ([], []) line) as [r1 d1].
    cbn [fst snd]. rewrite (IH (results ++ r1)), (IH r1 d1).
    cbn [fst snd]. now rewrite !app_assoc.
Qed.

Lemma parse_results_app l1 l2 :
  parse_results json_loads int_of_str (l1 ++ l2)
  = (fst (parse_results json_loads int_of_str l1)
       ++ fst (parse_results json_loads int_of_str l2),
     snd (parse_results json_loads int_of_str l1)
       ++ snd (parse_results json_loads int_of_str l2)).
Proof.
  unfold parse_results at 1. rewrite fold_left_app.
  fold (parse_results json_loads int_of_str l1).
  destruct (parse_results json_loads int_of_str l1) as [r1 d1].
  apply parse_fold.
Qed.

Lemma parse_results_cons line lines :
  parse_results json_loads int_of_str (line :: lines)
  = (fst (parse_step json_loads int_of_str ([], []) line)
       ++ fst (parse_results json_loads int_of_str lines),
     snd (parse_step json_loads int_of_str ([], []) line)
       ++ snd (parse_results json_loads int_of_str lines)).
Proof. apply (parse_results_app [line] lines). Qed.

(** The table holds the rows of the usable lines, in the order of the
    lines. *)
Lemma parse_results_rows lines :
  fst (parse_results json_loads int_of_str lines)
  = flat_map (rows_of_line json_loads int_of_str) lines.
Proof.
  induction lines as [|line lines IH]; [reflexivity |].
  rewrite parse_results_cons. cbn [fst flat_map]. rewrite IH. f_equal.
  unfold rows_of_line.
  destruct (usable_row json_loads int_of_str line) as [r|] eqn:E.
  - now rewrite (parse_step_usable line r E).
  - destruct (parse_step_unusable line E) as [d ->]. reflexivity.
Qed.

Lemma absent_unusable line :
  response_absent json_loads line = true ->
  usable_row json_loads int_of_str line = None.
Proof.
  unfold response_absent, usable_row, response_text.
  destruct (json_loads line) as [[] |]; try discriminate.
  destruct (lookup (lit "response") fields); [discriminate |].
  now destruct (field_or_null (lit "custom_id") fields).
Qed.

Lemma blocked_unusable line :
  response_blocked json_loads line = true ->
  usable_row json_loads int_of_str line = None.
Proof.
  unfold response_blocked, usable_row, response_text.
  destruct (json_loads line) as [[] |]; try discriminate.
  destruct (lookup (lit "response") fields) as [[] |]; try discriminate.
  destruct (lookup (lit "candidates") fields0); [discriminate |].
  now destruct (field_or_null (lit "custom_id") fields).
Qed.

(** An absent or blocked response is reported under its row. *)
Lemma absent_or_blocked_row_failed line fields custom_id :
  json_loads line = Some (JObj fields) ->
  field_or_null (lit "custom_id") fields = JStr custom_id ->
  response_absent json_loads line = true
  \/ response_blocked json_loads line = true ->
  parse_step json_loads int_of_str ([], []) line
  = ([], [Row_failed (fst (split_once (lit "::") custom_id))]).
Proof.
  unfold response_absent, response_blocked, parse_step, try_line, loads.
  intros -> Hid. cbn [bind dict_get]. rewrite Hid.
  cbn [bind as_str py_in getitem].
  destruct (lookup (lit "response") fields) as [[] |]; cbn [bind py_in getitem];
    intros [H | H]; try discriminate; try reflexivity.
  destruct (lookup (lit "candidates") fields0); [discriminate | reflexivity].
Qed.

(** C7: a line whose response is absent, blocked or malformed prints one
    diagnostic and adds no row, and the lines before and after it are
    parsed as they are without it: their rows are all in the table, and
    their diagnostics are all printed. *)
Theorem bad_line_reported_and_skipped :
  forall before line after,
    response_absent json_loads line = true
    \/ response_blocked json_loads line = true
    \/ usable_row json_loads int_of_str line = None ->
    exists d,
      fst (parse_results json_loads int_of_str (before ++ line :: after))
      = fst (parse_results json_loads int_of_str before)
          ++ fst (parse_results json_loads int_of_str after)
      /\ fst (parse_results json_loads int_of_str (before ++ line :: after))
         = fst (parse_results json_loads int_of_str (before ++ after))
      /\ snd (parse_results json_loads int_of_str (before ++ line :: after))
         = snd (parse_results json_loads int_of_str before)
             ++ d :: snd (parse_results json_loads int_of_str after).
Proof.
  intros before line after H.
  assert (E : usable_row json_loads int_of_str line = None).
  { destruct H as [H | [H | H]];
      [now apply absent_unusable | now apply blocked_unusable | exact H]. }
  destruct (parse_step_unusable line E) as [d Hd]. exists d.
  rewrite !parse_results_app, parse_results_cons, Hd. cbn [fst snd app].
  auto.
Qed.

(** C8: the rows written to the CSV file are in ascending order of the
    row identifier, they are the rows that were parsed, and for any two
    orders of the same output lines the file lists the same row
    identifiers in the same order. *)
Theorem written_rows_sorted :
  forall lines,
    StronglySorted row_le (written_rows json_loads int_of_str lines)
    /\ Permutation (written_rows json_loads int_of_str lines)
         (fst (parse_results json_loads int_of_str lines))
    /\ forall lines',
         Permutation lines lines' ->
         map Row (written_rows json_loads int_of_str lines')
         = map Row (written_rows json_loads int_of_str lines).
Proof.
  intro lines. unfold written_rows. split; [| split].
  - apply sort_by_sorted.
  - apply sort_by_perm.
  - intros lines' Hp. apply sorted_perm_keys; try apply sort_by_sorted.
    rewrite !sort_by_perm, !parse_results_rows.
    apply Permutation_flat_map. now symmetry.
Qed.

Lemma save_results_sorted output_text :
  StronglySorted row_le (fst (save_results json_loads int_of_str output_text)).
Proof. apply sort_by_sorted. Qed.

End ReconcilerFacts.

Lemma bad_line_reported_and_skipped_witness :
  exists d,
    fst (parse_results sample_loads sample_int
           ([lit "line 12"] ++ lit "line 7" :: [lit "garbage"; lit "line 3"]))
    = fst (parse_results sample_loads sample_int [lit "line 12"])
        ++ fst (parse_results sample_loads sample_int
                  [lit "garbage"; lit "line 3"])
    /\ fst (parse_results sample_loads sample_int
              ([lit "line 12"] ++ lit "line 7" :: [lit "garbage"; lit "line 3"]))
       = fst (parse_results sample_loads sample_int
                ([lit "line 12"] ++ [lit "garbage"; lit "line 3"]))
    /\ snd (parse_results sample_loads sample_int
              ([lit "line 12"] ++ lit "line 7" :: [lit "garbage"; lit "line 3"]))
       = snd (parse_results sample_loads sample_int [lit "line 12"])
           ++ d :: snd (parse_results sample_loads sample_int
                          [lit "garbage"; lit "line 3"]).
Proof.
  apply (bad_line_reported_and_skipped sample_loads sample_int
           [lit "line 12"] (lit "line 7") [lit "garbage"; lit "line 3"]).
  right; left. reflexivity.
Defined.

Lemma written_rows_sorted_witness :
  map Row (written_rows sample_loads sample_int [lit "line 3"; lit "line 12"])
  = map Row (written_rows sample_loads sample_int [lit "line 12"; lit "line 3"]).
Proof.
  apply (proj2 (proj2 (written_rows_sorted sample_loads sample_int
                         [lit "line 12"; lit "line 3"]))).
  apply perm_swap.
Defined.

(** Scenario D on the sample backend: the blocked line and the line that
    is not JSON are reported, the two answered lines are written, row 3
    before row 12. *)
Example save_results_sample :
  let lines := [lit "line 12"; lit "line 7"; lit "garbage"; lit "line 3"] in
  map Row (written_rows sample_loads sample_int lines) = [3; 12]
  /\ snd (parse_results sample_loads sample_int lines)
     = [Row_failed (lit "7"); Error_parsing_line JSONDecodeError].
Proof. split; reflexivity. Qed.


(** ** Further facts on the matcher *)

Lemma fold_left_prefix_invariant {A B : Type} (f : A -> B -> A)
    (P : list B -> A -> Prop) (a0 : A) :
  P [] a0 ->
  (forall l x a, P l a -> P (l ++ [x]) (f a x)) ->
  forall l, P l (fold_left f l a0).
Proof.
  intros H0 Hstep l. induction l as [|x l IH] using rev_ind; [exact H0 |].
  rewrite fold_left_app. simpl. now apply Hstep.
Qed.

Lemma adjusted_score_above_minus_one tsr pr citation g :
  0 <= similarity tsr pr (normalize_text citation) (normalize_text g) ->
  (inject_Z (-1) < adjusted_score tsr pr citation g)%Q.
Proof.
  intro H. unfold adjusted_score, tie_break. rewrite score_fraction.
  unfold Qlt, inject_Z. simpl. unfold len. lia.
Qed.

Section MatcherOrder.

Variables token_set_ratio partial_ratio : str -> str -> Z.

Lemma loop_order citation local_files :
  best_of_prefix token_set_ratio partial_ratio citation local_files
    (fold_left
       (match_step token_set_ratio partial_ratio (normalize_text citation)
          (extract_year citation))
       local_files (None, inject_Z (-1))).
Proof.
  apply fold_left_prefix_invariant.
  - split; [reflexivity | intros g []].
  - intros seen x [bf bs] H. unfold match_step. cbv zeta.
    change (year_mismatch (extract_year citation) (extract_year x))
      with (eliminated citation x).
    change (inject_Z (similarity token_set_ratio partial_ratio
                        (normalize_text citation) (normalize_text x))
            + tie_break (normalize_text x))%Q
      with (adjusted_score token_set_ratio partial_ratio citation x).
    unfold best_of_prefix in *. cbv zeta in *. cbn [fst snd] in H.
    destruct (eliminated citation x) eqn:Ee.
    + cbn [fst snd]. destruct bf as [f|].
      * destruct H as (Hs & He & pre & post & -> & Hpre & Hpost).
        repeat split; auto. exists pre, (post ++ [x]).
        rewrite <- app_assoc. repeat split; auto.
        intros g Hg. apply in_app_or in Hg.
        destruct Hg as [Hg | [<- | []]]; auto.
      * destruct H as [Hs Hall]. split; [exact Hs |].
        intros g Hg. apply in_app_or in Hg.
        destruct Hg as [Hg | [<- | []]]; auto.
    + destruct (Qgt_bool _ bs) eqn:Eg; unfold Qgt_bool in Eg.
      * apply negb_true_iff in Eg.
        assert (Hlt : (bs < adjusted_score token_set_ratio partial_ratio
                              citation x)%Q).
        { apply Qnot_le_lt. intro Hle. apply Qle_bool_iff in Hle. congruence. }
        cbn [fst snd]. repeat split; auto.
        exists seen, []. split; [reflexivity |]. split; [| intros g []].
        intros g Hg. destruct bf as [f|].
        -- destruct H as (Hs & He & pre & post & -> & Hpre & Hpost).
           rewrite Hs in Hlt. apply in_app_or in Hg.
           destruct Hg as [Hg | [<- | Hg]].
           ++ destruct (Hpre g Hg) as [|Hgf]; [now left | right].
              eapply Qlt_trans; eassumption.
           ++ now right.
           ++ destruct (Hpost g Hg) as [|Hgf]; [now left | right].
              eapply Qle_lt_trans; eassumption.
        -- destruct H as [Hs Hall]. rewrite Hs in Hlt.
           destruct (Hall g Hg) as [|Hgf]; [now left | right].
           eapply Qle_lt_trans; eassumption.
      * apply negb_false_iff, Qle_bool_iff in Eg.
        cbn [fst snd]. destruct bf as [f|].
        -- destruct H as (Hs & He & pre & post & -> & Hpre & Hpost).
           rewrite Hs in Eg. repeat split; auto. exists pre, (post ++ [x]).
           rewrite <- app_assoc. repeat split; auto.
           intros g Hg. apply in_app_or in Hg.
           destruct Hg as [Hg | [<- | []]]; auto.
        -- destruct H as [Hs Hall]. rewrite Hs in Eg. split; [exact Hs |].
           intros g Hg. apply in_app_or in Hg.
           destruct Hg as [Hg | [<- | []]]; auto.
Qed.

Lemma find_best_order citation local_files :
  exists st,
    best_of_prefix token_set_ratio partial_ratio citation local_files st
    /\ find_best_local_match token_set_ratio partial_ratio citation local_files
       = (fst st, Z.min (int_of_Q (snd st)) 100).
Proof.
  eexists. split; [apply loop_order |].
  unfold find_best_local_match. now destruct (fold_left _ _ _).
Qed.

(** The order of the loop on the rational scores of the model. *)
Lemma best_match_order :
  forall citation local_files f confidence,
    find_best_local_match token_set_ratio partial_ratio citation local_files
    = (Some f, confidence) ->
    let score := adjusted_score token_set_ratio partial_ratio citation in
    eliminated citation f = false
    /\ exists pre post,
         local_files = pre ++ f :: post
         /\ (forall g, In g pre ->
               eliminated citation g = true \/ (score g < score f)%Q)
         /\ (forall g, In g post ->
               eliminated citation g = true \/ (score g <= score f)%Q).
Proof.
  intros citation local_files f confidence E score.
  destruct (find_best_order citation local_files) as ([bf bs] & H & E').
  rewrite E in E'. cbn [fst snd] in E'. injection E' as <- _.
  unfold best_of_prefix in H. cbn [fst snd] in H.
  destruct H as (_ & He & Hrest). split; assumption.
Qed.

(** X1: with candidates whose normalized names are shorter than 1000
    characters and similarities in [[0,100]], the selected file passed the
    guardrail and ranks first: a passing candidate before it in the list
    has a lower similarity, or the same similarity and a shorter
    normalized name; a passing candidate after it has a lower similarity,
    or the same similarity and a normalized name that is not longer.  The
    higher similarity wins, then the longer name, then the first seen. *)
Theorem best_match_maximal_first_seen :
  forall citation local_files f confidence,
    let sim g :=
      similarity token_set_ratio partial_ratio
        (normalize_text citation) (normalize_text g) in
    let size g := len (normalize_text g) in
    (forall g, In g local_files -> size g < 1000 /\ 0 <= sim g <= 100) ->
    find_best_local_match token_set_ratio partial_ratio citation local_files
    = (Some f, confidence) ->
    eliminated citation f = false
    /\ exists pre post,
         local_files = pre ++ f :: post
         /\ (forall g, In g pre ->
               eliminated citation g = true
               \/ sim g < sim f \/ (sim g = sim f /\ size g < size f))
         /\ (forall g, In g post ->
               eliminated citation g = true
               \/ sim g < sim f \/ (sim g = sim f /\ size g <= size f)).
Proof.
  intros citation local_files f confidence sim size Hshort E.
  destruct (best_match_order citation local_files f confidence E)
    as (He & pre & post & -> & Hpre & Hpost).
  assert (Hsize : forall g, In g (pre ++ f :: post) -> 0 <= size g < 1000).
  { intros g Hg. apply Hshort in Hg. unfold size, len in *. lia. }
  assert (Hf : 0 <= size f < 1000)
    by (apply Hsize, in_or_app; right; now left).
  split; [exact He |]. exists pre, post. split; [reflexivity |]. split.
  - intros g Hg. destruct (Hpre g Hg) as [|Hlt]; [now left | right].
    assert (Hg' : 0 <= size g < 1000) by (apply Hsize, in_or_app; now left).
    unfold adjusted_score, tie_break in Hlt. fold (sim g) (sim f) in Hlt.
    fold (size g) (size f) in Hlt. rewrite !score_fraction in Hlt.
    unfold Qlt in Hlt. simpl in Hlt. lia.
  - intros g Hg. destruct (Hpost g Hg) as [|Hle]; [now left | right].
    assert (Hg' : 0 <= size g < 1000)
      by (apply Hsize, in_or_app; right; now right).
    unfold adjusted_score, tie_break in Hle. fold (sim g) (sim f) in Hle.
    fold (size g) (size f) in Hle. rewrite !score_fraction in Hle.
    unfold Qle in Hle. simpl in Hle. lia.
Qed.

(** X2: when some candidate passes the guardrail with a similarity that is
    not negative, a file is selected, it passed the guardrail too, and its
    adjusted score is at least that of the candidate. *)
Theorem passing_candidate_gives_match :
  forall citation local_files g,
    In g local_files ->
    eliminated citation g = false ->
    0 <= similarity token_set_ratio partial_ratio
           (normalize_text citation) (normalize_text g) ->
    exists f confidence,
      find_best_local_match token_set_ratio partial_ratio citation local_files
      = (Some f, confidence)
      /\ eliminated citation f = false
      /\ (adjusted_score token_set_ratio partial_ratio citation g
          <= adjusted_score token_set_ratio partial_ratio citation f)%Q.
Proof.
  intros citation local_files g Hin He Hs.
  apply (adjusted_score_above_minus_one _ _ citation g) in Hs.
  destruct (find_best_order citation local_files) as ([bf bs] & H & E).
  unfold best_of_prefix in H. cbv zeta in H. cbn [fst snd] in *.
  destruct bf as [f|].
  - exists f. eexists. split; [exact E |].
    destruct H as (_ & Hf & pre & post & -> & Hpre & Hpost).
    split; [exact Hf |]. apply in_app_or in Hin.
    destruct Hin as [Hin | [<- | Hin]].
    + destruct (Hpre g Hin) as [|Hlt]; [congruence |]. now apply Qlt_le_weak.
    + apply Qle_refl.
    + destruct (Hpost g Hin) as [|Hle]; [congruence | exact Hle].
  - destruct H as [_ Hall]. destruct (Hall g Hin) as [|Hle]; [congruence |].
    exfalso. eapply Qlt_irrefl, Qlt_le_trans; eassumption.
Qed.

(** X3: a row that [run_batch_job] does not skip for low confidence has a
    matched file name: it is a file of the folder listing with the PDF
    extension, it passed the guardrail, and the score is in [[40,100]]. *)
Theorem accepted_match_has_file :
  forall listing e row_num matched_filename score,
    match_entry token_set_ratio partial_ratio (local_pdf_files listing) e
    = Matched row_num matched_filename score ->
    row_num = row e /\ 40 <= score <= 100
    /\ exists f,
         matched_filename = Some f /\ In f listing /\ is_pdf f = true
         /\ eliminated (name e) f = false.
Proof.
  intros listing e row_num matched_filename score. unfold match_entry.
  destruct (find_best_unfold token_set_ratio partial_ratio (name e)
              (local_pdf_files listing)) as ([bf bs] & H & ->).
  cbn [fst snd]. destruct (Z.min (int_of_Q bs) 100 <? 40) eqn:Et;
    [discriminate |].
  intro E. injection E as <- <- <-. apply Z.ltb_ge in Et.
  unfold best_so_far in H. cbn [fst snd] in H. destruct bf as [f|].
  - destruct H as (Hin & He & _). apply filter_In in Hin.
    repeat split; try lia. exists f. tauto.
  - rewrite H in Et. vm_compute in Et. exfalso. now apply Et.
Qed.

End MatcherOrder.

Lemma best_match_maximal_first_seen_witness :
  eliminated (lit "paper") (lit "paper_v2_final.pdf") = false
  /\ exists pre post,
       [lit "paper_v1.pdf"; lit "paper_v2_final.pdf"]
       = pre ++ lit "paper_v2_final.pdf" :: post
       /\ (forall g, In g pre ->
             eliminated (lit "paper") g = true
             \/ similarity sample_ratio sample_ratio
                  (normalize_text (lit "paper")) (normalize_text g)
                < similarity sample_ratio sample_ratio
                    (normalize_text (lit "paper"))
                    (normalize_text (lit "paper_v2_final.pdf"))
             \/ (similarity sample_ratio sample_ratio
                   (normalize_text (lit "paper")) (normalize_text g)
                 = similarity sample_ratio sample_ratio
                     (normalize_text (lit "paper"))
                     (normalize_text (lit "paper_v2_final.pdf"))
                 /\ len (normalize_text g)
                    < len (normalize_text (lit "paper_v2_final.pdf"))))
       /\ (forall g, In g post ->
             eliminated (lit "paper") g = true
             \/ similarity sample_ratio sample_ratio
                  (normalize_text (lit "paper")) (normalize_text g)
                < similarity sample_ratio sample_ratio
                    (normalize_text (lit "paper"))
                    (normalize_text (lit "paper_v2_final.pdf"))
             \/ (similarity sample_ratio sample_ratio
                   (normalize_text (lit "paper")) (normalize_text g)
                 = similarity sample_ratio sample_ratio
                     (normalize_text (lit "paper"))
                     (normalize_text (lit "paper_v2_final.pdf"))
                 /\ len (normalize_text g)
                    <= len (normalize_text (lit "paper_v2_final.pdf")))).
Proof.
  apply (best_match_maximal_first_seen sample_ratio sample_ratio
           (lit "paper") [lit "paper_v1.pdf"; lit "paper_v2_final.pdf"]
           (lit "paper_v2_final.pdf") 80).
  - intros g [<- | [<- | []]]; vm_compute; repeat split; discriminate.
  - vm_compute. reflexivity.
Defined.

Lemma passing_candidate_gives_match_witness :
  exists f confidence,
    find_best_local_match sample_ratio sample_ratio (lit "paper 2019")
      [lit "paper 2020.pdf"; lit "paper 2019.pdf"]
    = (Some f, confidence)
    /\ eliminated (lit "paper 2019") f = false
    /\ (adjusted_score sample_ratio sample_ratio (lit "paper 2019")
          (lit "paper 2019.pdf")
        <= adjusted_score sample_ratio sample_ratio (lit "paper 2019") f)%Q.
Proof.
  apply (passing_candidate_gives_match sample_ratio sample_ratio
           (lit "paper 2019") [lit "paper 2020.pdf"; lit "paper 2019.pdf"]
           (lit "paper 2019.pdf")).
  - right; left; reflexivity.
  - reflexivity.
  - vm_compute. discriminate.
Defined.

Lemma accepted_match_has_file_witness :
  12 = row {| row := 12; name := lit "paper 2019" |} /\ 40 <= 80 <= 100
  /\ exists f,
       Some (lit "paper 2019.pdf") = Some f
       /\ In f [lit "notes.txt"; lit "paper 2019.pdf"] /\ is_pdf f = true
       /\ eliminated (name {| row := 12; name := lit "paper 2019" |}) f = false.
Proof.
  apply (accepted_match_has_file sample_ratio sample_ratio
           [lit "notes.txt"; lit "paper 2019.pdf"]
           {| row := 12; name := lit "paper 2019" |} 12
           (Some (lit "paper 2019.pdf")) 80).
  vm_compute. reflexivity.
Defined.

(** ** Further facts on the normalizer and on [replace] *)

Lemma starts_with_length p s :
  starts_with p s = true -> (List.length p <= List.length s)%nat.
Proof.
  revert s. induction p as [|a p IH]; intros [|b s] H; simpl in *;
    try lia; try discriminate.
  apply andb_true_iff in H. destruct H as [_ H]. apply IH in H. lia.
Qed.

Lemma starts_with_pdf_app rest :
  rest <> [] ->
  starts_with (lit ".pdf") (rest ++ lit ".pdf")
  = starts_with (lit ".pdf") rest.
Proof.
  intro Hne.
  destruct rest as [|a [|b [|c [|d rest]]]]; [contradiction | | | |];
    simpl; rewrite ?andb_false_r; reflexivity.
Qed.

Lemma replace_pdf_suffix name :
  forall skip,
    (skip <= List.length name)%nat ->
    replace_from (lit ".pdf") [] skip (name ++ lit ".pdf")
    = replace_from (lit ".pdf") [] skip name.
Proof.
  induction name as [|c rest IH]; intros skip Hk.
  - simpl in Hk. assert (skip = 0%nat) as -> by lia. reflexivity.
  - destruct skip as [|k].
    + change ((c :: rest) ++ lit ".pdf") with (c :: rest ++ lit ".pdf").
      cbn [replace_from].
      change (c :: rest ++ lit ".pdf") with ((c :: rest) ++ lit ".pdf").
      rewrite starts_with_pdf_app by discriminate.
      destruct (starts_with (lit ".pdf") (c :: rest)) eqn:E.
      * apply starts_with_length in E. simpl in E.
        f_equal. apply IH. simpl. lia.
      * f_equal. apply IH. lia.
    + simpl. apply IH. simpl in Hk. lia.
Qed.

Lemma replace_prefix_free o old' new body tail :
  ~ In o body ->
  replace (o :: old') new (body ++ tail)
  = body ++ replace (o :: old') new tail.
Proof.
  unfold replace. intro Hold.
  induction body as [|c body IH]; [reflexivity |].
  change ((c :: body) ++ tail) with (c :: body ++ tail).
  cbn [replace_from starts_with].
  destruct (Ascii.eqb o c) eqn:E.
  - apply Ascii.eqb_eq in E. subst. exfalso. apply Hold. now left.
  - cbn [andb app]. f_equal. apply IH. intro Hin. apply Hold. now right.
Qed.

(** X4: the extension does not count in the matching: a name followed by
    [.pdf] in any letter case normalizes as the name alone. *)
Theorem normalize_text_ignores_extension :
  forall file_stem extension,
    lower extension = lit ".pdf" ->
    normalize_text (file_stem ++ extension) = normalize_text file_stem.
Proof.
  intros file_stem extension H. unfold normalize_text, lower.
  rewrite map_app. fold (lower extension). rewrite H.
  unfold replace. rewrite replace_pdf_suffix by lia. reflexivity.
Qed.

Lemma normalize_text_ignores_extension_witness :
  normalize_text (lit "Smith_2019" ++ lit ".PDF")
  = normalize_text (lit "Smith_2019").
Proof.
  apply (normalize_text_ignores_extension (lit "Smith_2019") (lit ".PDF")).
  reflexivity.
Defined.

(** X5: the Markdown fence does not count: an answer between
    [```json] and [```] and the bare answer give the same text to the JSON
    parser, the answer without the white space around it (the answer
    holding no backquote). *)
Theorem clean_fences_fenced_or_bare :
  forall answer,
    ~ In "`"%char answer ->
    clean_fences (lit "```json" ++ answer ++ lit "```") = strip answer
    /\ clean_fences answer = strip answer.
Proof.
  intros answer Hno. unfold clean_fences. split.
  - change (replace (lit "```json") [] (lit "```json" ++ answer ++ lit "```"))
      with (replace ("`"%char :: lit "``json") [] (answer ++ lit "```")).
    rewrite replace_prefix_free by assumption.
    change (replace ("`"%char :: lit "``json") [] (lit "```"))
      with (lit "```").
    change (lit "```") with ("`"%char :: lit "``") at 1.
    rewrite replace_prefix_free by assumption.
    change (replace ("`"%char :: lit "``") [] (lit "```")) with (@nil ascii).
    now rewrite app_nil_r.
  - rewrite <- (app_nil_r answer) at 1.
    change (lit "```json") with ("`"%char :: lit "``json").
    rewrite replace_prefix_free by assumption.
    change (lit "```") with ("`"%char :: lit "``").
    rewrite replace_prefix_free by assumption.
    now rewrite !app_nil_r.
Qed.

Lemma clean_fences_fenced_or_bare_witness :
  clean_fences (lit "```json" ++ lit " answer " ++ lit "```")
  = strip (lit " answer ")
  /\ clean_fences (lit " answer ") = strip (lit " answer ").
Proof.
  apply (clean_fences_fenced_or_bare (lit " answer ")).
  simpl. intuition discriminate.
Defined.

(** ** Further facts on the custom id *)

Lemma digit_char_09 d : 0 <= d < 10 -> is_09 (digit_char d) = true.
Proof.
  intro H. unfold is_09, in_range, code, digit_char.
  rewrite N_ascii_embedding by lia.
  apply andb_true_iff. split; apply N.leb_le; lia.
Qed.

Lemma digits_of_09 fuel :
  forall n, 0 <= n -> Forall (fun c => is_09 c = true) (digits_of fuel n).
Proof.
  induction fuel as [|fuel IH]; intros n Hn; simpl; [constructor |].
  destruct (n <? 10) eqn:E.
  - apply Z.ltb_lt in E. constructor; [| constructor].
    apply digit_char_09. lia.
  - apply Forall_app. split.
    + apply IH. apply Z.div_pos; lia.
    + constructor; [| constructor]. apply digit_char_09.
      apply Z.mod_pos_bound. lia.
Qed.

Lemma not_colon_09 c : is_09 c = true -> Ascii.eqb ":"%char c = false.
Proof. each_char c; vm_compute; congruence. Qed.

Lemma str_of_int_no_colon n :
  Forall (fun c => Ascii.eqb ":"%char c = false) (str_of_int n).
Proof.
  unfold str_of_int. destruct (n <? 0) eqn:E.
  - apply Z.ltb_lt in E. constructor; [reflexivity |].
    eapply Forall_impl; [apply not_colon_09 | apply digits_of_09; lia].
  - apply Z.ltb_ge in E.
    eapply Forall_impl; [apply not_colon_09 | apply digits_of_09; lia].
Qed.

Lemma split_once_first_sep a b :
  Forall (fun c => Ascii.eqb ":"%char c = false) a ->
  split_once (lit "::") (a ++ lit "::" ++ b) = (a, Some b).
Proof.
  induction 1 as [|c a Hc Ha IH]; [reflexivity |].
  change ((c :: a) ++ lit "::" ++ b) with (c :: a ++ lit "::" ++ b).
  cbn [split_once]. change (lit "::") with [":"%char; ":"%char] at 1.
  cbn [starts_with]. rewrite Hc. cbn [andb]. now rewrite IH.
Qed.

Lemma split_once_custom_id row_num citation_text :
  split_once (lit "::") (safe_citation_id row_num citation_text)
  = (str_of_int row_num, Some (safe_citation_snippet citation_text)).
Proof. apply split_once_first_sep, str_of_int_no_colon. Qed.

Lemma ascii_ignore_ascii s :
  Forall (fun c => (code c < 128)%N) (ascii_ignore s).
Proof.
  apply Forall_forall. intros c Hin. apply filter_In in Hin.
  now apply N.ltb_lt.
Qed.

Lemma ascii_09 c : is_09 c = true -> (code c < 128)%N.
Proof. each_char c; vm_compute; congruence. Qed.

(** X6: the custom id built for a request splits back, at its first
    [::], into the decimal row number and the citation snippet, whatever
    the citation holds (also [::]). *)
Theorem custom_id_splits_back :
  forall row_num citation_text,
    let parts := split_once (lit "::") (safe_citation_id row_num citation_text) in
    fst parts = str_of_int row_num
    /\ snd parts = Some (safe_citation_snippet citation_text).
Proof.
  intros row_num citation_text parts. subst parts.
  now rewrite split_once_custom_id.
Qed.

(** X7: the custom id is ASCII only, and its snippet holds at most 50
    characters, the ASCII characters among the first 50 of the citation in
    their order. *)
Theorem custom_id_wire_safe :
  forall row_num citation_text,
    Forall (fun c => (code c < 128)%N) (safe_citation_id row_num citation_text)
    /\ (List.length (safe_citation_snippet citation_text) <= 50)%nat
    /\ safe_citation_snippet citation_text
       = filter (fun c => (code c <? 128)%N) (firstn 50 citation_text).
Proof.
  intros row_num citation_text. split; [| split; [| reflexivity]].
  - unfold safe_citation_id. repeat (apply Forall_app; split).
    + unfold str_of_int. destruct (row_num <? 0) eqn:E.
      * apply Z.ltb_lt in E. constructor; [reflexivity |].
        eapply Forall_impl; [apply ascii_09 | apply digits_of_09; lia].
      * apply Z.ltb_ge in E.
        eapply Forall_impl; [apply ascii_09 | apply digits_of_09; lia].
    + repeat constructor.
    + apply ascii_ignore_ascii.
  - unfold safe_citation_snippet, ascii_ignore.
    etransitivity; [apply filter_length_le |].
    rewrite length_firstn. lia.
Qed.

Section ReconcilerMore.

Variable json_loads : str -> option json.
Variable int_of_str : str -> option Z.

(** X8: the answer to a request comes back under the row it was sent
    for: a line whose [custom_id] is the one [run_batch_job] built for
    [row_num] and whose response text is a JSON object adds a row with
    [Row = row_num] and the snippet of the request, given that [int] reads
    the decimal numeral of [row_num] back. *)
Theorem answered_request_keeps_row :
  forall line fields row_num citation_text text data results printed,
    json_loads line = Some (JObj fields) ->
    field_or_null (lit "custom_id") fields
    = JStr (safe_citation_id row_num citation_text) ->
    response_text (JObj fields) = Some text ->
    json_loads (clean_fences text) = Some (JObj data) ->
    int_of_str (str_of_int row_num) = Some row_num ->
    parse_step json_loads int_of_str (results, printed) line
    = (results
         ++ [{| Row := row_num;
                Sheet_Citation_Snippet := safe_citation_snippet citation_text;
                Methodology := field_or_null (lit "methodology") data;
                Reason := field_or_null (lit "reason") data |}],
       printed).
Proof.
  intros line fields row_num citation_text text data results printed
    Hl Hid Ht Hd Hi.
  rewrite parse_step_state.
  rewrite (parse_step_usable json_loads int_of_str line
             {| Row := row_num;
                Sheet_Citation_Snippet := safe_citation_snippet citation_text;
                Methodology := field_or_null (lit "methodology") data;
                Reason := field_or_null (lit "reason") data |}).
  - cbn [fst snd]. now rewrite app_nil_r.
  - unfold usable_row. rewrite Hl, Hid, Ht, Hd, split_once_custom_id.
    cbn [fst snd]. now rewrite Hi.
Qed.

Lemma parse_step_one line :
  (List.length (fst (parse_step json_loads int_of_str ([], []) line))
   + List.length (snd (parse_step json_loads int_of_str ([], []) line))
   = 1)%nat.
Proof.
  destruct (usable_row json_loads int_of_str line) as [r|] eqn:E.
  - now rewrite (parse_step_usable _ _ line r E).
  - destruct (parse_step_unusable _ _ line E) as [d ->]. reflexivity.
Qed.

(** X9: every line is accounted for: it adds one row or prints one
    diagnostic, never both and never neither, so rows and diagnostics
    together number the lines; the rows are those of the usable lines, in
    the order of the lines. *)
Theorem every_line_row_or_diagnostic :
  forall lines,
    (List.length (fst (parse_results json_loads int_of_str lines))
     + List.length (snd (parse_results json_loads int_of_str lines))
     = List.length lines)%nat
    /\ fst (parse_results json_loads int_of_str lines)
       = flat_map (rows_of_line json_loads int_of_str) lines.
Proof.
  intro lines. split; [| apply parse_results_rows].
  induction lines as [|line lines IH]; [reflexivity |].
  rewrite parse_results_cons. cbn [fst snd List.length].
  rewrite !length_app. pose proof (parse_step_one line). lia.
Qed.

End ReconcilerMore.

Lemma answered_request_keeps_row_witness :
  parse_step sample_loads sample_int ([], []) (lit "line 12")
  = ([] ++ [{| Row := 12;
               Sheet_Citation_Snippet := safe_citation_snippet (lit "Smith 2019");
               Methodology := field_or_null (lit "methodology")
                                [(lit "methodology", JStr (lit "Experimental"));
                                 (lit "reason",
                                  JStr (lit "Randomized controlled trial."))];
               Reason := field_or_null (lit "reason")
                           [(lit "methodology", JStr (lit "Experimental"));
                            (lit "reason",
                             JStr (lit "Randomized controlled trial."))] |}],
      []).
Proof.
  apply (answered_request_keeps_row sample_loads sample_int (lit "line 12")
           ((lit "custom_id", JStr (lit "12::Smith 2019"))
              :: answered (lit "```json answer ```"))
           12 (lit "Smith 2019") (lit "```json answer ```"));
    reflexivity.
Defined.

(** ** Further facts on the order of the rows *)

Lemma filter_insert_by {A : Type} (key : A -> Z) (k : Z) (x : A) (l : list A) :
  filter (fun r => key r =? k) (insert_by key x l)
  = if key x =? k then x :: filter (fun r => key r =? k) l
    else filter (fun r => key r =? k) l.
Proof.
  induction l as [|y l IH]; simpl; [reflexivity |].
  destruct (key x <=? key y) eqn:E; [reflexivity |].
  apply Z.leb_gt in E. simpl. rewrite IH.
  destruct (key x =? k) eqn:Ex; [| reflexivity].
  apply Z.eqb_eq in Ex.
  destruct (key y =? k) eqn:Ey; [apply Z.eqb_eq in Ey; lia | reflexivity].
Qed.

Lemma filter_sort_by {A : Type} (key : A -> Z) (k : Z) (l : list A) :
  filter (fun r => key r =? k) (sort_by key l)
  = filter (fun r => key r =? k) l.
Proof.
  induction l as [|x l IH]; [reflexivity |].
  simpl. rewrite filter_insert_by, IH. reflexivity.
Qed.

(** X10: the sort is stable: the rows written under one row identifier
    (a custom id answered twice) are the rows parsed under it, in the
    order of their lines. *)
Theorem written_rows_stable :
  forall json_loads int_of_str lines k,
    filter (fun r => Row r =? k) (written_rows json_loads int_of_str lines)
    = filter (fun r => Row r =? k)
        (flat_map (rows_of_line json_loads int_of_str) lines).
Proof.
  intros json_loads int_of_str lines k. unfold written_rows.
  now rewrite filter_sort_by, parse_results_rows.
Qed.

(** ** Further facts on the lines *)

Lemma splitlines_from_line l :
  Forall no_line_break l ->
  forall cur rest,
    splitlines_from cur (l ++ ascii_of_N 10 :: rest)
    = (cur ++ l) :: splitlines_from [] rest.
Proof.
  induction 1 as [|c l [Hcr Hlb] Hl IH]; intros cur rest.
  - now rewrite app_nil_r.
  - change ((c :: l) ++ ascii_of_N 10 :: rest)
      with (c :: l ++ ascii_of_N 10 :: rest).
    cbn [splitlines_from]. rewrite Hcr, Hlb, IH, <- app_assoc. reflexivity.
Qed.

(** X11: lines written one per record, each ended by a line feed, read
    back as the same lines: the final line feed adds no empty line, and an
    empty record stays an empty line (no record holding a line break). *)
Theorem splitlines_reads_written_lines :
  forall lines,
    Forall (Forall no_line_break) lines ->
    splitlines (write_lines lines) = lines.
Proof.
  unfold splitlines, write_lines.
  induction 1 as [|l lines Hl Hlines IH]; [reflexivity |].
  cbn [map List.concat]. rewrite <- app_assoc. cbn [app].
  now rewrite splitlines_from_line, IH.
Qed.

Lemma splitlines_reads_written_lines_witness :
  splitlines (write_lines [lit "line 12"; lit ""; lit "line 3"])
  = [lit "line 12"; lit ""; lit "line 3"].
Proof.
  apply (splitlines_reads_written_lines [lit "line 12"; lit ""; lit "line 3"]).
  repeat constructor.
Defined.

(** ** Further facts on the model fallback *)

Section SubmitFacts.

Context {job : Type}.
Variable create : str -> option job.

(** X12: the job is created with the first model of the list that the
    backend accepts; the models before it were attempted and refused, no
    model after it is attempted; without an accepted model every model
    was attempted and there is no job. *)
Theorem try_models_first_accepted :
  forall candidates,
    match try_models create candidates with
    | (Some batch_job, attempted) =>
        exists refused model_id later,
          candidates = refused ++ model_id :: later
          /\ (forall m, In m refused -> create m = None)
          /\ create model_id = Some batch_job
          /\ attempted = refused ++ [model_id]
    | (None, attempted) =>
        (forall m, In m candidates -> create m = None)
        /\ attempted = candidates
    end.
Proof.
  induction candidates as [|m rest IH]; simpl.
  - split; [intros m [] | reflexivity].
  - destruct (create m) as [j|] eqn:Em.
    + exists [], m, rest. repeat split; auto. intros x [].
    + destruct (try_models create rest) as [[j|] attempted].
      * destruct IH as (refused & model_id & later & -> & Href & Hacc & ->).
        exists (m :: refused), model_id, later. repeat split; auto.
        intros x [<- | Hx]; auto.
      * destruct IH as [Hall ->]. split; [| reflexivity].
        intros x [<- | Hx]; auto.
Qed.

End SubmitFacts.

(** ** Further facts on the sheet *)

Lemma index_of_first x l i :
  index_of x l = Some i ->
  nth_error l i = Some x
  /\ forall j, (j < i)%nat -> nth_error l j <> Some x.
Proof.
  revert i. induction l as [|y l IH]; intros i H; simpl in H; [discriminate |].
  unfold str_eqb in H. destruct (list_eq_dec ascii_dec y x) as [-> | Hne].
  - injection H as <-. split; [reflexivity | intros j Hj; lia].
  - destruct (index_of x l) as [k|]; [| discriminate]. injection H as <-.
    destruct (IH k eq_refl) as [Hk Hbefore]. split; [exact Hk |].
    intros [|j] Hj; simpl; [congruence | apply Hbefore; lia].
Qed.

Section SheetFacts.

Variables (mode : str) (start_row end_row : Z) (specific_rows : list Z).
Variable file_col_index : nat.

Lemma select_rows_in data_rows :
  forall index e,
    In e (select_rows mode start_row end_row specific_rows file_col_index
            index data_rows)
    <-> exists k row_data,
          nth_error data_rows k = Some row_data
          /\ row e = index + Z.of_nat k + 2
          /\ name e = cell_name file_col_index row_data
          /\ name e <> []
          /\ row_wanted mode start_row end_row specific_rows (row e) = true.
Proof.
  induction data_rows as [|row_data rest IH]; intros index e.
  - simpl. split; [intros [] | intros (k & rd & H & _)].
    destruct k; discriminate.
  - cbn [select_rows].
    assert (Hlater :
      In e (select_rows mode start_row end_row specific_rows file_col_index
              (index + 1) rest)
      <-> exists k row_data0,
            nth_error (row_data :: rest) (S k) = Some row_data0
            /\ row e = index + Z.of_nat (S k) + 2
            /\ name e = cell_name file_col_index row_data0
            /\ name e <> []
            /\ row_wanted mode start_row end_row specific_rows (row e) = true).
    { rewrite IH. split; intros (k & rd & H1 & H2 & H3); exists k, rd;
        (repeat split; [exact H1 | lia | apply H3 | apply H3 | apply H3]). }
    assert (Hhere :
      forall k rd,
        nth_error (row_data :: rest) k = Some rd ->
        row e = index + Z.of_nat k + 2 ->
        name e = cell_name file_col_index rd -> name e <> [] ->
        row_wanted mode start_row end_row specific_rows (row e) = true ->
        (k = 0%nat /\ rd = row_data)
        \/ In e (select_rows mode start_row end_row specific_rows
                   file_col_index (index + 1) rest)).
    { intros [|k] rd H1 H2 H3 H4 H5.
      - left. simpl in H1. split; congruence.
      - right. apply Hlater. exists k, rd. auto. }
    destruct (cell_name file_col_index row_data) as [|c file_name] eqn:Ec.
    + split.
      * intro H. apply Hlater in H. destruct H as (k & rd & H).
        exists (S k), rd. exact H.
      * intros (k & rd & H1 & H2 & H3 & H4 & H5).
        destruct (Hhere k rd H1 H2 H3 H4 H5) as [[-> ->] | H]; [| exact H].
        congruence.
    + destruct (row_wanted mode start_row end_row specific_rows (index + 2))
        eqn:Ew.
      * split.
        -- intros [<- | H].
           ++ exists 0%nat, row_data. cbn [row name nth_error Z.of_nat].
              rewrite Ec. repeat split; [lia | discriminate | exact Ew].
           ++ apply Hlater in H. destruct H as (k & rd & H).
              exists (S k), rd. exact H.
        -- intros (k & rd & H1 & H2 & H3 & H4 & H5).
           destruct (Hhere k rd H1 H2 H3 H4 H5) as [[-> ->] | H];
             [left | now right].
           destruct e as [r n]. cbn [row name] in *. f_equal; [lia | congruence].
      * split.
        -- intro H. apply Hlater in H. destruct H as (k & rd & H).
           exists (S k), rd. exact H.
        -- intros (k & rd & H1 & H2 & H3 & H4 & H5).
           destruct (Hhere k rd H1 H2 H3 H4 H5) as [[-> ->] | H]; [| exact H].
           replace (index + Z.of_nat 0 + 2) with (index + 2) in H2 by lia.
           congruence.
Qed.

Lemma select_rows_increasing data_rows :
  forall index,
    Forall (fun e => index + 2 <= row e)
      (select_rows mode start_row end_row specific_rows file_col_index
         index data_rows)
    /\ StronglySorted Z.lt
         (map row (select_rows mode start_row end_row specific_rows
                     file_col_index index data_rows)).
Proof.
  induction data_rows as [|row_data rest IH]; intro index.
  - split; constructor.
  - cbn [select_rows]. destruct (IH (index + 1)) as [Hlow Hsorted].
    assert (Hlow' : Forall (fun e => index + 2 <= row e)
              (select_rows mode start_row end_row specific_rows
                 file_col_index (index + 1) rest))
      by (eapply Forall_impl; [| exact Hlow]; simpl; intros; lia).
    destruct (cell_name file_col_index row_data); [now split |].
    destruct (row_wanted _ _ _ _ _); [| now split].
    split.
    + constructor; [simpl; lia | exact Hlow'].
    + cbn [map row]. constructor; [exact Hsorted |].
      rewrite Forall_map. eapply Forall_impl; [| exact Hlow].
      simpl; intros; lia.
Qed.

End SheetFacts.

(** X13: the entries selected from the sheet are the rows of the sheet
    whose cell in the citation column is not empty once stripped and whose
    row number the request asks for; the column is the first one with the
    header, the row number is the position in the sheet counted from 1
    with the header row first, and the name is the stripped cell. *)
Theorem selected_entries_are_the_wanted_rows :
  forall all_rows column_header mode start_row end_row specific_rows files,
    get_files_from_sheet all_rows column_header mode start_row end_row
      specific_rows = Selected files ->
    exists headers data_rows file_col_index,
      all_rows = headers :: data_rows
      /\ nth_error headers file_col_index = Some column_header
      /\ (forall j, (j < file_col_index)%nat ->
            nth_error headers j <> Some column_header)
      /\ forall e,
           In e files
           <-> exists k row_data,
                 nth_error data_rows k = Some row_data
                 /\ row e = Z.of_nat k + 2
                 /\ name e = cell_name file_col_index row_data
                 /\ name e <> []
                 /\ row_wanted mode start_row end_row specific_rows (row e)
                    = true.
Proof.
  intros all_rows column_header mode start_row end_row specific_rows files.
  unfold get_files_from_sheet.
  destruct all_rows as [|headers data_rows]; [discriminate |].
  destruct (index_of column_header headers) as [i|] eqn:Ei; [| discriminate].
  destruct (select_rows mode start_row end_row specific_rows i 0 data_rows)
    as [|e0 sel] eqn:Es; [discriminate |].
  intro E. injection E as <-. rewrite <- Es.
  apply index_of_first in Ei. destruct Ei as [Hi Hfirst].
  exists headers, data_rows, i. repeat split; try assumption.
  - intro H. apply select_rows_in in H. exact H.
  - intro H. apply select_rows_in. exact H.
Qed.

(** X14: the selected entries are never an empty list, their row numbers
    are 2 at least and strictly increasing, so no row number comes twice;
    in the mode [range] every row number lies between the two bounds, in
    the mode [list] it is one of the rows asked for, and no other mode
    selects anything. *)
Theorem selected_rows_distinct_and_asked_for :
  forall all_rows column_header mode start_row end_row specific_rows files,
    get_files_from_sheet all_rows column_header mode start_row end_row
      specific_rows = Selected files ->
    files <> []
    /\ Forall (fun e => 2 <= row e) files
    /\ StronglySorted Z.lt (map row files)
    /\ ((mode = lit "range"
         /\ Forall (fun e => start_row <= row e <= end_row) files)
        \/ (mode = lit "list"
            /\ Forall (fun e => In (row e) specific_rows) files)).
Proof.
  intros all_rows column_header mode start_row end_row specific_rows files.
  unfold get_files_from_sheet.
  destruct all_rows as [|headers data_rows]; [discriminate |].
  destruct (index_of column_header headers) as [i|]; [| discriminate].
  pose proof (select_rows_increasing mode start_row end_row specific_rows i
                data_rows 0) as [Hlow Hsorted].
  pose proof (select_rows_in mode start_row end_row specific_rows i
                data_rows 0) as Hin.
  destruct (select_rows mode start_row end_row specific_rows i 0 data_rows)
    as [|e0 sel] eqn:Es; [discriminate |].
  intro E. injection E as <-.
  split; [discriminate |]. split; [exact Hlow |]. split; [exact Hsorted |].
  assert (Hw : forall e, In e (e0 :: sel) ->
                 row_wanted mode start_row end_row specific_rows (row e) = true).
  { intros e He. apply Hin in He. destruct He as (k & rd & H). apply H. }
  unfold row_wanted, str_eqb in Hw.
  destruct (list_eq_dec ascii_dec mode (lit "range")) as [Hr | _].
  - left. split; [exact Hr |]. apply Forall_forall. intros e He.
    apply Hw in He. apply andb_true_iff in He. lia.
  - destruct (list_eq_dec ascii_dec mode (lit "list")) as [Hl | _].
    + right. split; [exact Hl |]. apply Forall_forall. intros e He.
      apply Hw in He. apply existsb_exists in He.
      destruct He as (z & Hz & Heq). apply Z.eqb_eq in Heq. now subst.
    + specialize (Hw e0 (or_introl eq_refl)). discriminate.
Qed.

Lemma selected_entries_are_the_wanted_rows_witness :
  exists headers data_rows file_col_index,
    sample_sheet = headers :: data_rows
    /\ nth_error headers file_col_index = Some (lit "Citation")
    /\ (forall j, (j < file_col_index)%nat ->
          nth_error headers j <> Some (lit "Citation"))
    /\ forall e,
         In e sample_selection
         <-> exists k row_data,
               nth_error data_rows k = Some row_data
               /\ row e = Z.of_nat k + 2
               /\ name e = cell_name file_col_index row_data
               /\ name e <> []
               /\ row_wanted (lit "range") 2 4 [] (row e) = true.
Proof.
  apply (selected_entries_are_the_wanted_rows sample_sheet (lit "Citation")
           (lit "range") 2 4 [] sample_selection).
  reflexivity.
Defined.

Lemma selected_rows_distinct_and_asked_for_witness :
  sample_selection <> []
  /\ Forall (fun e => 2 <= row e) sample_selection
  /\ StronglySorted Z.lt (map row sample_selection)
  /\ ((lit "list" = lit "range"
       /\ Forall (fun e => 0 <= row e <= 0) sample_selection)
      \/ (lit "list" = lit "list"
          /\ Forall (fun e => In (row e) [4; 2; 3]) sample_selection)).
Proof.
  apply (selected_rows_distinct_and_asked_for sample_sheet (lit "Citation")
           (lit "list") 0 0 [4; 2; 3] sample_selection).
  reflexivity.
Defined.

(** X15: a citation whose every candidate the guardrail eliminates, or
    with no candidate at all, is skipped for low confidence with the score
    -1: the missing file name never reaches the upload. *)
Theorem no_candidate_is_skipped :
  forall token_set_ratio partial_ratio local_pdf_files e,
    (forall f, In f local_pdf_files -> eliminated (name e) f = true) ->
    match_entry token_set_ratio partial_ratio local_pdf_files e
    = Low_confidence (row e) (-1).
Proof.
  intros token_set_ratio partial_ratio local_pdf_files e Hall.
  unfold match_entry.
  destruct (find_best_unfold token_set_ratio partial_ratio (name e)
              local_pdf_files) as ([bf bs] & H & ->).
  unfold best_so_far in H. cbn [fst snd] in *. destruct bf as [f|].
  - destruct H as (Hin & He & _). apply Hall in Hin.
    unfold eliminated in Hin. congruence.
  - rewrite H. reflexivity.
Qed.

Lemma no_candidate_is_skipped_witness :
  match_entry sample_ratio sample_ratio [lit "paper 2020.pdf"]
    {| row := 5; name := lit "paper 2019" |}
  = Low_confidence (row {| row := 5; name := lit "paper 2019" |}) (-1).
Proof.
  apply (no_candidate_is_skipped sample_ratio sample_ratio
           [lit "paper 2020.pdf"] {| row := 5; name := lit "paper 2019" |}).
  intros f [<- | []]. reflexivity.
Defined.

(** Scenario E on the list of the source: the first two models refused,
    the third accepted, the fourth not attempted. *)
Example try_models_third_accepted :
  try_models
    (fun m =>
       if str_eqb m (lit "models/gemini-2.0-flash-lite-preview-02-05")
          || str_eqb m (lit "models/gemini-2.5-flash-lite")
       then Some m else None)
    model_candidates
  = (Some (lit "models/gemini-2.0-flash-lite-preview-02-05"),
     [lit "models/gemini-flash-latest"; lit "models/gemini-pro-latest";
      lit "models/gemini-2.0-flash-lite-preview-02-05"]).
Proof. reflexivity. Qed.
